(** * Rehashed sources: a shallow embedding of [main.py]

    The batch job cross-references click records with offer records,
    recomputes the database hash of every candidate tuple, and keeps the
    candidates whose hash is one of the tokens stored in some offer's
    whitelist or blacklist.

    Modelling conventions.
    - A DataFrame cell is a [pyval].  Numeric cells are integers ([PyInt];
      a float cell that holds a whole number is that number); the float
      [nan] that pandas stores for a missing number is [PyNaN]; SQL NULL in
      an object column is [PyNone].  Cells are read back as they were
      stored.
    - The whitelist / blacklist cells are lists of string tokens.
    - A Python [set] is a [gset]; [list(s)] is [elements s].  Python does not
      fix the iteration order of a set, and no statement below relies on it.
      Tuples are compared field by field; the columns that are copied into
      tuples are keys and text, where [nan] (unequal to itself in Python)
      does not occur.
    - The offers DataFrame is mutated in place, so DataFrames of offers live
      in a store and are passed by reference.  The clicks DataFrame is only
      iterated and is passed by value.
    - Exceptions, the logger and the module-level global [pairs] are threaded
      through a state-and-exception monad.
    - The database is reachable (configuration, tunnel and connection
      succeed); its [hashtext] function is a parameter of the development;
      a [SELECT] over a [VALUES] list returns its rows in the order of the
      list. *)

From Stdlib Require Import Ascii String ZArith.
From stdpp Require Import base option list strings gmap sets pretty.

Local Open Scope string_scope.
Local Open Scope list_scope.
Local Open Scope Z_scope.

(** ** Python values held in DataFrame cells and tuples *)

Inductive pyval : Type :=
  | PyNone
  | PyNaN
  | PyInt (z : Z)
  | PyStr (s : string).

Global Instance pyval_eq_dec : EqDecision pyval.
Proof. solve_decision. Defined.

Definition pyval_to_sum (v : pyval) : (unit + unit) + (Z + string) :=
  match v with
  | PyNone => inl (inl tt)
  | PyNaN => inl (inr tt)
  | PyInt z => inr (inl z)
  | PyStr s => inr (inr s)
  end.

Definition pyval_of_sum (x : (unit + unit) + (Z + string)) : pyval :=
  match x with
  | inl (inl _) => PyNone
  | inl (inr _) => PyNaN
  | inr (inl z) => PyInt z
  | inr (inr s) => PyStr s
  end.

Global Instance pyval_countable : Countable pyval.
Proof.
  apply (inj_countable' pyval_to_sum pyval_of_sum).
  by intros [].
Defined.

(** Exceptions that the modelled code can raise. *)
Inductive exn : Type :=
  | TypeError
  | ValueError
  | NameError
  | ProgrammingError.

Global Instance exn_eq_dec : EqDecision exn.
Proof. solve_decision. Defined.

Inductive res (A : Type) : Type :=
  | Ok (a : A)
  | Raise (e : exn).
Arguments Ok {A} a.
Arguments Raise {A} e.

(** [pd.isnull]: [None] and [nan] are the missing values. *)
Definition isnull (v : pyval) : bool :=
  match v with
  | PyNone | PyNaN => true
  | _ => false
  end.

Definition notnull (v : pyval) : bool := negb (isnull v).

(** [str(v)]: never fails. *)
Definition py_str (v : pyval) : string :=
  match v with
  | PyNone => "None"
  | PyNaN => "nan"
  | PyInt z => pretty z
  | PyStr s => s
  end.

(** *** [int(v)]

    On a string, [int] strips surrounding whitespace (tab, line feed,
    vertical tab, form feed, carriage return and space), reads an optional
    sign and then decimal digits, where single underscores may separate
    digits.  The parser below is this grammar on ASCII text. *)

Definition is_space (a : ascii) : bool :=
  let n := N_of_ascii a in
  (((9 <=? n) && (n <=? 13)) || (n =? 32))%N.

Definition digit_of (a : ascii) : option Z :=
  let n := N_of_ascii a in
  if ((48 <=? n) && (n <=? 57))%N then Some (Z.of_N n - 48) else None.

Fixpoint lstrip (l : list ascii) : list ascii :=
  match l with
  | a :: l' => if is_space a then lstrip l' else l
  | [] => []
  end.

Definition strip (l : list ascii) : list ascii :=
  rev (lstrip (rev (lstrip l))).

Fixpoint parse_digits (acc : Z) (after_digit : bool) (l : list ascii)
  : option Z :=
  match l with
  | [] => if after_digit then Some acc else None
  | a :: l' =>
      match digit_of a with
      | Some d => parse_digits (10 * acc + d) true l'
      | None =>
          if (N_of_ascii a =? 95)%N && after_digit
          then parse_digits acc false l'
          else None
      end
  end.

Definition int_of_string (s : string) : option Z :=
  match strip (list_ascii_of_string s) with
  | a :: l =>
      if (N_of_ascii a =? 43)%N then parse_digits 0 false l
      else if (N_of_ascii a =? 45)%N then Z.opp <$> parse_digits 0 false l
      else parse_digits 0 false (a :: l)
  | [] => None
  end.

Definition py_int (v : pyval) : res Z :=
  match v with
  | PyNone => Raise TypeError
  | PyNaN => Raise ValueError
  | PyInt z => Ok z
  | PyStr s =>
      match int_of_string s with
      | Some z => Ok z
      | None => Raise ValueError
      end
  end.

(** ** Rows of the tables *)

(** A row of the click query: columns [current_aff_id], [current_source]. *)
Record ClickRecord : Type := Click {
  current_aff_id : pyval;
  current_source : pyval;
}.

(** A row of the offer query. *)
Record OfferRecord : Type := Offer {
  offer_id : pyval;
  source_token_blacklist : list string;
  source_token_whitelist : list string;
  ssp_account_id : pyval;
  ssp_segment_id : pyval;
  name : pyval;
  advertiser : pyval;
}.

(** The 7-tuple
    [(aff_id, source, account_id, segment_id, offer_id, advertiser,
      segment_name)]. *)
Definition CandidateTuple : Type :=
  pyval * pyval * pyval * pyval * pyval * pyval * pyval.

Definition pair_0 (pair : CandidateTuple) : pyval :=
  let '(x, _, _, _, _, _, _) := pair in x.
Definition pair_1 (pair : CandidateTuple) : pyval :=
  let '(_, x, _, _, _, _, _) := pair in x.
Definition pair_2 (pair : CandidateTuple) : pyval :=
  let '(_, _, x, _, _, _, _) := pair in x.
Definition pair_3 (pair : CandidateTuple) : pyval :=
  let '(_, _, _, x, _, _, _) := pair in x.
Definition pair_4 (pair : CandidateTuple) : pyval :=
  let '(_, _, _, _, x, _, _) := pair in x.
Definition pair_5 (pair : CandidateTuple) : pyval :=
  let '(_, _, _, _, _, x, _) := pair in x.
Definition pair_6 (pair : CandidateTuple) : pyval :=
  let '(_, _, _, _, _, _, x) := pair in x.

(** A row of the DataFrame built by [traffic_source_hash_pairs]. *)
Record HashedRow : Type := Hashed {
  h_aff_id : pyval;
  h_source : pyval;
  h_account_id : pyval;
  h_segment_id : pyval;
  h_offer_id : pyval;
  h_advertiser : pyval;
  h_segment_name : pyval;
  h_hash_value : pyval;
}.

(** A row of the DataFrame built by [rehashed_sources], in the column order
    of the dictionary it is made from. *)
Record ResolvedRow : Type := Resolved {
  r_hash_value : pyval;
  r_offer_id : pyval;
  r_aff_id : pyval;
  r_source : pyval;
  r_account_id : pyval;
  r_segment_id : pyval;
  r_advertiser : pyval;
  r_segment_name : pyval;
}.

Global Instance HashedRow_eq_dec : EqDecision HashedRow.
Proof. solve_decision. Defined.
Global Instance ResolvedRow_eq_dec : EqDecision ResolvedRow.
Proof. solve_decision. Defined.
Global Instance ClickRecord_eq_dec : EqDecision ClickRecord.
Proof. solve_decision. Defined.
Global Instance OfferRecord_eq_dec : EqDecision OfferRecord.
Proof. solve_decision. Defined.

(** ** The interpreter state and its monad *)

Inductive log_entry : Type :=
  | LogError (ex : exn)
  | LogInfo (msg : string) (count : nat)
  | LogSuccess (func : string).

(** [frames]: the DataFrames of offers, by reference.
    [g_pairs]: the module-level name [pairs], unbound until [__main__]
    assigns it.  [logged]: what the logger received, oldest first. *)
Record world : Type := World {
  frames : gmap nat (list OfferRecord);
  g_pairs : option (list CandidateTuple);
  logged : list log_entry;
}.

Definition M (A : Type) : Type := world → res A * world.

Definition ret {A} (a : A) : M A := λ w, (Ok a, w).

Definition bind {A B} (m : M A) (k : A → M B) : M B := λ w,
  match m w with
  | (Ok a, w') => k a w'
  | (Raise ex, w') => (Raise ex, w')
  end.

Definition raise {A} (ex : exn) : M A := λ w, (Raise ex, w).

Notation "'let*' x := m 'in' k" := (bind m (λ x, k))
  (at level 10, x name, m at level 100, k at level 200,
   format "'[v' 'let*'  x  :=  m  'in' '/' k ']'").
Notation "m ;;; k" := (bind m (λ _, k))
  (at level 100, k at level 200, right associativity).

Definition log (entry : log_entry) : M unit := λ w,
  (Ok tt, World (frames w) (g_pairs w) (logged w ++ [entry])).

(** Reading through a reference.  Every reference of the script points to
    a DataFrame; one that does not is treated as an unbound name. *)
Definition read_frame (df : nat) : M (list OfferRecord) := λ w,
  match frames w !! df with
  | Some rows => (Ok rows, w)
  | None => (Raise NameError, w)
  end.

Definition write_frame (df : nat) (rows : list OfferRecord) : M unit := λ w,
  (Ok tt, World (<[df := rows]> (frames w)) (g_pairs w) (logged w)).

(** A new DataFrame object, at an address not in use. *)
Definition new_frame (rows : list OfferRecord) : M nat := λ w,
  let df := fresh (dom (frames w)) in
  (Ok df, World (<[df := rows]> (frames w)) (g_pairs w) (logged w)).

Definition read_pairs : M (list CandidateTuple) := λ w,
  match g_pairs w with
  | Some pairs => (Ok pairs, w)
  | None => (Raise NameError, w)
  end.

Definition assign_pairs (pairs : list CandidateTuple) : M unit := λ w,
  (Ok tt, World (frames w) (Some pairs) (logged w)).

(** The [timed] decorator: when the function returns, its upper-cased name
    is logged (the measured duration is not modelled); when it raises, the
    exception passes through and nothing is logged. *)
Definition timed {A} (func : string) (m : M A) : M A :=
  let* result := m in
  log (LogSuccess func);;;
  ret result.

(** ** [generate_aff_source_pairs] *)

(** [df2.dropna(subset=['ssp_segment_id'], inplace=True)] *)
Definition dropna_segment (rows : list OfferRecord) : list OfferRecord :=
  filter (λ row, notnull (ssp_segment_id row)) rows.

Definition dropna_inplace (df2 : nat) : M unit :=
  let* rows := read_frame df2 in
  write_frame df2 (dropna_segment rows).

(** The body of the [try] block: a raised exception, no tuple (empty
    [hash_list]) or the tuple to add. *)
Definition try_pair (aff_id source : pyval) (row_df2 : OfferRecord)
  : res (option CandidateTuple) :=
  let account_id := py_str (ssp_account_id row_df2) in
  match py_int (ssp_segment_id row_df2) with
  | Raise ex => Raise ex
  | Ok segment_id =>
      let offer := offer_id row_df2 in
      let adv := advertiser row_df2 in
      let segment_name := name row_df2 in
      let w_list := source_token_whitelist row_df2 in
      let b_list := source_token_blacklist row_df2 in
      let hash_list : gset string := list_to_set w_list ∪ list_to_set b_list in
      if decide (hash_list = ∅) then Ok None
      else Ok (Some (aff_id, source, PyStr account_id, PyInt segment_id,
                     offer, adv, segment_name))
  end.

(** The inner [for] loop over the rows of [df2]. *)
Fixpoint offers_loop (aff_id source : pyval) (df2 : list OfferRecord)
    (hash_pairs : gset CandidateTuple) : M (gset CandidateTuple) :=
  match df2 with
  | [] => ret hash_pairs
  | row_df2 :: rest =>
      match try_pair aff_id source row_df2 with
      | Ok (Some tuple) =>
          offers_loop aff_id source rest (hash_pairs ∪ {[tuple]})
      | Ok None => offers_loop aff_id source rest hash_pairs
      | Raise ex =>
          log (LogError ex);;;
          offers_loop aff_id source rest hash_pairs
      end
  end.

(** The outer [for] loop over the rows of [df1]. *)
Fixpoint clicks_loop (df1 : list ClickRecord) (df2 : list OfferRecord)
    (hash_pairs : gset CandidateTuple) : M (gset CandidateTuple) :=
  match df1 with
  | [] => ret hash_pairs
  | row_df1 :: rest =>
      let aff_id := current_aff_id row_df1 in
      let source := current_source row_df1 in
      let* hash_pairs' := offers_loop aff_id source df2 hash_pairs in
      clicks_loop rest df2 hash_pairs'
  end.

Definition generate_aff_source_pairs (df1 : list ClickRecord) (df2 : nat)
  : M (list CandidateTuple) :=
  dropna_inplace df2;;;
  let* rows := read_frame df2 in
  let* hash_pairs := clicks_loop df1 rows ∅ in
  ret (elements hash_pairs).

(** ** [get_current_hashes] *)

(** The [for] loop: rows whose [ssp_account_id] is missing are passed over,
    the tokens of the other rows are added to [total_list_set]. *)
Fixpoint hashes_loop (rows : list OfferRecord) (total_list_set : gset string)
  : gset string :=
  match rows with
  | [] => total_list_set
  | row :: rest =>
      let account_id := ssp_account_id row in
      if notnull account_id then
        let w_list := source_token_whitelist row in
        let b_list := source_token_blacklist row in
        hashes_loop rest
          (total_list_set ∪ list_to_set w_list ∪ list_to_set b_list)
      else hashes_loop rest total_list_set
  end.

Definition get_current_hashes (df : nat) : M (gset string) :=
  let* rows := read_frame df in
  let total_list_set := hashes_loop rows ∅ in
  log (LogInfo "All hashed sources" (size total_list_set));;;
  ret total_list_set.

(** ** The hash query *)

(** A row of SQL literals [(aff_id, source, account_id, segment_id)];
    [None] is SQL NULL. *)
Definition sql_row : Type := option Z * option string * option string * option Z.

Definition nil_uuid : string := "00000000-0000-0000-0000-000000000000".

(** [COALESCE(x, d)] *)
Definition coalesce {A} (x : option A) (d : A) : A := default d x.

(** The text that the query hashes for one row:
    the four coalesced fields, cast to text and joined by ['_']. *)
Definition hash_text (row : sql_row) : string :=
  let '(aff_id, source, account_id, segment_id) := row in
  pretty (coalesce aff_id 0) +:+ "_" +:+
  coalesce source "" +:+ "_" +:+
  coalesce account_id nil_uuid +:+ "_" +:+
  pretty (coalesce segment_id 0).

(** The literal row of one candidate; the evaluation order of the four
    conversions is that of the argument list. *)
Definition literal_row (pr : CandidateTuple) : res sql_row :=
  match py_int (pair_0 pr) with
  | Raise ex => Raise ex
  | Ok aff_id =>
      let source := py_str (pair_1 pr) in
      let account_id := py_str (pair_2 pr) in
      match py_int (pair_3 pr) with
      | Raise ex => Raise ex
      | Ok segment_id =>
          Ok (Some aff_id, Some source, Some account_id, Some segment_id)
      end
  end.

(** The loop that fills [values]; a candidate whose conversion raises is
    passed over in silence. *)
Fixpoint values_loop (data : list CandidateTuple) (values : list sql_row)
  : list sql_row :=
  match data with
  | [] => values
  | pr :: rest =>
      match literal_row pr with
      | Ok v => values_loop rest (values ++ [v])
      | Raise _ => values_loop rest values
      end
  end.

(** [pd.DataFrame] from a dictionary of columns: the seven columns read
    from one list of tuples have one length; the constructor raises
    [ValueError] when the [hash_value] column has another. *)
Definition hashed_row (pr : CandidateTuple) (h : Z) : HashedRow :=
  Hashed (pair_0 pr) (pair_1 pr) (pair_2 pr) (pair_3 pr) (pair_4 pr)
         (pair_5 pr) (pair_6 pr) (PyInt h).

Definition data_frame (pairs : list CandidateTuple) (hash_value : list Z)
  : M (list HashedRow) :=
  if decide (length pairs = length hash_value)
  then ret (zip_with hashed_row pairs hash_value)
  else raise ValueError.

(** The filter loop of [rehashed_sources]. *)
Definition resolved_row (row : HashedRow) : ResolvedRow :=
  Resolved (h_hash_value row) (h_offer_id row) (h_aff_id row) (h_source row)
           (h_account_id row) (h_segment_id row) (h_advertiser row)
           (h_segment_name row).

Fixpoint rehash_loop (hashed_results : list HashedRow)
    (hashed_list : gset string) (rows : list ResolvedRow)
  : list ResolvedRow :=
  match hashed_results with
  | [] => rows
  | row :: rest =>
      if decide (py_str (h_hash_value row) ∈ hashed_list)
      then rehash_loop rest hashed_list (rows ++ [resolved_row row])
      else rehash_loop rest hashed_list rows
  end.

(** [get_data_from_db]: the rows that the query selects. *)
Definition get_data_from_db {A} (table : list A) : M (list A) :=
  timed "GET_DATA_FROM_DB" (ret table).

(** The script up to the call of [rehashed_sources]: [query_acc] selects
    [acc_rows], [query_aff] selects [aff_rows]; the values are the global
    [pairs] and [current_hashes]. *)
Definition reference_run (acc_rows : list OfferRecord)
    (aff_rows : list ClickRecord)
  : M (list CandidateTuple * gset string) :=
  let* acc := get_data_from_db acc_rows in
  let* df_acc := new_frame acc in
  let* df_aff := get_data_from_db aff_rows in
  let* pairs := generate_aff_source_pairs df_aff df_acc in
  assign_pairs pairs;;;
  let* current_hashes := get_current_hashes df_acc in
  ret (pairs, current_hashes).

Section Database.

(** The database's [hashtext]. *)
Variable hashtext : string → Z.

(** [execute_sql_query] on the hash query with the given [VALUES] rows.
    The database evaluates the select list once per row, in the order of
    the rows.  A [VALUES] clause with no row is not SQL: the server
    rejects the statement and the driver raises. *)
Definition execute_sql_query (values : list sql_row) : M (list Z) :=
  match values with
  | [] => raise ProgrammingError
  | _ => ret (hashtext ∘ hash_text <$> values)
  end.

(** The columns of the seven tuple fields are read from the global
    [pairs]; [data] only feeds the query. *)
Definition traffic_source_hash_pairs (data : list CandidateTuple)
  : M (list HashedRow) :=
  timed "TRAFFIC_SOURCE_HASH_PAIRS" (
    let values := values_loop data [] in
    let* results := execute_sql_query values in
    let* pairs := read_pairs in
    data_frame pairs results).

Definition rehashed_sources (hashed_list : gset string)
  : M (list ResolvedRow) :=
  let* pairs := read_pairs in
  let* hashed_results := traffic_source_hash_pairs pairs in
  let rows := rehash_loop hashed_results hashed_list [] in
  log (LogInfo "All rehashed sources" (length rows));;;
  ret rows.

(** The whole script; the result is the table written to the CSV file. *)
Definition main (acc_rows : list OfferRecord) (aff_rows : list ClickRecord)
  : M (list ResolvedRow) :=
  let* run := reference_run acc_rows aff_rows in
  let current_hashes := run.2 in
  let* rehashed_data := rehashed_sources current_hashes in
  ret rehashed_data.

End Database.

(** The state in which the script starts. *)
Definition initial : world := World ∅ None [].

Definition toy_hash (s : string) : Z := Z.of_nat (String.length s).

Definition click1 : ClickRecord := Click (PyInt 1) (PyStr "fb").
Definition offer1 : OfferRecord :=
  Offer (PyInt 10) [] ["4"] (PyStr "A") (PyInt 5) (PyStr "seg") (PyStr "X").

(** ** Readings of the loops, and sample data *)

(** What one (click, offer) pair adds to [hash_pairs] and to the log. *)
Definition pair_tuple (aff_id source : pyval) (row_df2 : OfferRecord)
  : option CandidateTuple :=
  match try_pair aff_id source row_df2 with
  | Ok (Some tuple) => Some tuple
  | _ => None
  end.

Definition pair_error (aff_id source : pyval) (row_df2 : OfferRecord)
  : list log_entry :=
  match try_pair aff_id source row_df2 with
  | Raise ex => [LogError ex]
  | _ => []
  end.

Definition click_tuples (df2 : list OfferRecord) (row_df1 : ClickRecord)
  : list CandidateTuple :=
  omap (pair_tuple (current_aff_id row_df1) (current_source row_df1)) df2.

Definition click_errors (df2 : list OfferRecord) (row_df1 : ClickRecord)
  : list log_entry :=
  df2 ≫= pair_error (current_aff_id row_df1) (current_source row_df1).

Definition all_tuples (df1 : list ClickRecord) (df2 : list OfferRecord)
  : gset CandidateTuple :=
  list_to_set (df1 ≫= click_tuples df2).

Definition all_errors (df1 : list ClickRecord) (df2 : list OfferRecord)
  : list log_entry :=
  df1 ≫= click_errors df2.

Definition with_log (w : world) (entries : list log_entry) : world :=
  World (frames w) (g_pairs w) (logged w ++ entries).

(** The state after [generate_aff_source_pairs]: the frame behind [df2]
    holds the rows that survived [dropna], and the log has grown. *)
Definition after_generate (df1 : list ClickRecord) (df2 : nat)
    (rows : list OfferRecord) (w : world) : world :=
  World (<[df2 := dropna_segment rows]> (frames w)) (g_pairs w)
        (logged w ++ all_errors df1 (dropna_segment rows)).

(** The union of the two token lists, as the [try] block forms it. *)
Definition tokens_of (row : OfferRecord) : gset string :=
  list_to_set (source_token_whitelist row) ∪
  list_to_set (source_token_blacklist row).

(** The tuple that a click and an offer give, once [int] has returned [n]
    for the segment identifier. *)
Definition candidate (click : ClickRecord) (offer : OfferRecord) (n : Z)
  : CandidateTuple :=
  (current_aff_id click, current_source click,
   PyStr (py_str (ssp_account_id offer)), PyInt n,
   offer_id offer, advertiser offer, name offer).

(** A store with one frame of offers, for the examples. *)
Definition one_frame (rows : list OfferRecord) : world :=
  World {[ 0%nat := rows ]} None [].

Definition offer_null_segment : OfferRecord :=
  Offer (PyInt 11) [] ["h"] (PyStr "A") PyNone PyNone (PyStr "X").
Definition offer_no_tokens : OfferRecord :=
  Offer (PyInt 12) [] [] (PyStr "A") (PyInt 6) (PyStr "seg6") (PyStr "X").
Definition offer_bad_segment : OfferRecord :=
  Offer (PyInt 13) ["k"] [] (PyStr "A") (PyStr "abc") (PyStr "seg") (PyStr "X").
Definition click2 : ClickRecord := Click (PyInt 2) (PyStr "tw").

(** The state in which [reference_run] ends. *)
Definition after_reference_run (acc_rows : list OfferRecord)
    (aff_rows : list ClickRecord) (w : world) : world :=
  let kept := dropna_segment acc_rows in
  World (<[fresh (dom (frames w)) := kept]> (frames w))
        (Some (elements (all_tuples aff_rows kept)))
        (logged w ++
           [LogSuccess "GET_DATA_FROM_DB"; LogSuccess "GET_DATA_FROM_DB"] ++
           all_errors aff_rows kept ++
           [LogInfo "All hashed sources" (size (hashes_loop kept ∅))]).

Definition offer_null_account : OfferRecord :=
  Offer (PyInt 14) ["k"] [] PyNone (PyInt 7) (PyStr "seg7") (PyStr "X").
Definition offer_match : OfferRecord :=
  Offer (PyInt 10) [] ["8"] (PyStr "A") (PyInt 5) (PyStr "seg") (PyStr "X").

Definition literal_of (pr : CandidateTuple) : option sql_row :=
  match literal_row pr with
  | Ok v => Some v
  | Raise _ => None
  end.

(** The number of candidates that the loop passes over. *)
Definition uncoercible (data : list CandidateTuple) : nat :=
  length (filter (λ pr, literal_of pr = None) data).

(** The tuple that the seven columns of a row make up. *)
Definition tuple_of (row : HashedRow) : CandidateTuple :=
  (h_aff_id row, h_source row, h_account_id row, h_segment_id row,
   h_offer_id row, h_advertiser row, h_segment_name row).

Definition cand_good : CandidateTuple :=
  (PyInt 1, PyStr "fb", PyStr "A", PyInt 5, PyInt 10, PyStr "X", PyStr "seg").
Definition cand_other : CandidateTuple :=
  (PyInt 2, PyStr "tw", PyStr "A", PyInt 5, PyInt 10, PyStr "X", PyStr "seg").
Definition cand_bad : CandidateTuple :=
  (PyStr "n/a", PyStr "tw", PyStr "A", PyInt 5, PyInt 10, PyStr "X",
   PyStr "seg").

Definition cand_spaced : CandidateTuple :=
  (PyStr " 1 ", PyStr "fb", PyStr "A", PyStr "5", PyInt 99, PyNone, PyNone).

Definition with_pairs (pairs : list CandidateTuple) : world :=
  World ∅ (Some pairs) [].

(** The tuple that seven of the eight fields of a resolved row make up. *)
Definition resolved_tuple (row : ResolvedRow) : CandidateTuple :=
  (r_aff_id row, r_source row, r_account_id row, r_segment_id row,
   r_offer_id row, r_advertiser row, r_segment_name row).

(** ** [read_config] *)

(** What [read_config] can raise: an error of [config.get] for an option,
    [IndexError] from indexing the parts of a split, [ValueError] from
    [int]. *)
Inductive config_exn : Type :=
  | NoOptionError (key : string)
  | IndexError
  | IntValueError.

Definition config_res (A : Type) : Type := config_exn + A.

Definition config_bind {A B} (m : config_res A) (k : A → config_res B)
  : config_res B :=
  match m with
  | inl ex => inl ex
  | inr a => k a
  end.

Notation "'let?' x := m 'in' k" := (config_bind m (λ x, k))
  (at level 10, x name, m at level 100, k at level 200,
   format "'[v' 'let?'  x  :=  m  'in' '/' k ']'").

(** [s.split(sep)] for a separator of one character. *)
Fixpoint split (sep : ascii) (s : string) : list string :=
  match s with
  | EmptyString => [EmptyString]
  | String a s' =>
      if decide (a = sep) then EmptyString :: split sep s'
      else match split sep s' with
           | part :: parts => String a part :: parts
           | [] => [String a EmptyString]
           end
  end.

(** [l[i]] *)
Definition index {A} (l : list A) (i : nat) : config_res A :=
  match l !! i with
  | Some x => inr x
  | None => inl IndexError
  end.

(** [int(s)] for a string. *)
Definition to_int (s : string) : config_res Z :=
  match int_of_string s with
  | Some z => inr z
  | None => inl IntValueError
  end.

(** The dictionary [ssh_param]. *)
Record ssh_param : Type := SshParam {
  ssh_host : string;
  ssh_port : Z;
  ssh_private_key : string;
  ssh_username : string;
  remote_bind_address : string * Z;
}.

(** The dictionary [db_param]. *)
Record db_param : Type := DbParam {
  dbname : string;
  user : string;
  password : string;
  host : string;
}.

Section Config.

(** [config.get(section, key)] on the file that was read: the value, or
    [None] when the call raises (no such section or option, or a value
    that cannot be interpolated). *)
Variable config_get : string → string → option string.

(** [os.path.expanduser] *)
Variable expanduser : string → string.

Definition get (section key : string) : config_res string :=
  match config_get section key with
  | Some value => inr value
  | None => inl (NoOptionError key)
  end.

(** The values of the two dictionaries are evaluated in the order in which
    they are written. *)
Definition read_config (section : string) : config_res (ssh_param * db_param) :=
  let? v := get section "ssh_host" in
  let? host1 := index (split ":" v) 0 in
  let? v := get section "ssh_host" in
  let? port1 := index (split ":" v) 1 in
  let? port1 := to_int port1 in
  let? key := get section "ssh_private_key_path" in
  let? username := get section "ssh_username" in
  let? v := get section "remote_bind_address" in
  let? host2 := index (split ":" v) 0 in
  let? v := get section "remote_bind_address" in
  let? port2 := index (split ":" v) 1 in
  let? port2 := to_int port2 in
  let? db_name := get section "db_name" in
  let? db_user := get section "db_user" in
  let? db_password := get section "db_password" in
  let? db_host := get section "db_host" in
  inr (SshParam host1 port1 (expanduser key) username (host2, port2),
       DbParam db_name db_user db_password db_host).

End Config.

(** The separator does not occur in the string. *)
Definition no_sep (sep : ascii) (s : string) : Prop :=
  Forall (λ a, a ≠ sep) (list_ascii_of_string s).

(** The rest of a value after the port: nothing, or a colon and more. *)
Definition port_tail (t : string) : Prop :=
  t = EmptyString ∨ ∃ t', t = String ":" t'.

(** A sample file, as an association list. *)
Definition sample_config : list (string * string) :=
  [("ssh_host", "bastion.example.org:2222");
   ("ssh_private_key_path", "~/.ssh/id_rsa");
   ("ssh_username", "deploy");
   ("remote_bind_address", "10.0.0.5:5432:ignored");
   ("db_name", "offers");
   ("db_user", "reader");
   ("db_password", "secret");
   ("db_host", "localhost")].

Fixpoint assoc (l : list (string * string)) (key : string) : option string :=
  match l with
  | [] => None
  | (k, v) :: rest => if decide (k = key) then Some v else assoc rest key
  end.

Definition sample_get (section key : string) : option string :=
  if decide (section = "postgresql") then assoc sample_config key else None.

Definition sample_expanduser (path : string) : string :=
  match path with
  | String "~" rest => "/home/deploy" +:+ rest
  | _ => path
  end.

(** ** Further readings of the candidate loop *)

(** The [try] block raises on this offer. *)
Definition segment_fails (offer : OfferRecord) : bool :=
  match py_int (ssp_segment_id offer) with
  | Raise _ => true
  | Ok _ => false
  end.

(** The [try] block adds a tuple for this offer. *)
Definition eligible (offer : OfferRecord) : bool :=
  match py_int (ssp_segment_id offer) with
  | Ok _ => bool_decide (tokens_of offer ≠ ∅)
  | Raise _ => false
  end.

(** The offer with another segment identifier. *)
Definition with_segment (offer : OfferRecord) (segment : pyval) : OfferRecord :=
  Offer (offer_id offer) (source_token_blacklist offer)
        (source_token_whitelist offer) (ssp_account_id offer) segment
        (name offer) (advertiser offer).

(** The offer with an integer segment identifier written as decimal text. *)
Definition segment_as_text (offer : OfferRecord) : OfferRecord :=
  match ssp_segment_id offer with
  | PyInt n => with_segment offer (PyStr (pretty n))
  | _ => offer
  end.

(** Two offers that give the same tuple with every click. *)
Definition same_tuple_fields (offer offer' : OfferRecord) : Prop :=
  py_str (ssp_account_id offer) = py_str (ssp_account_id offer') ∧
  py_int (ssp_segment_id offer) = py_int (ssp_segment_id offer') ∧
  offer_id offer = offer_id offer' ∧
  advertiser offer = advertiser offer' ∧
  name offer = name offer'.

(** The text that is hashed for a click and an offer. *)
Definition candidate_text (a : Z) (click : ClickRecord) (offer : OfferRecord)
    (n : Z) : string :=
  pretty a +:+ "_" +:+ py_str (current_source click) +:+ "_" +:+
  py_str (ssp_account_id offer) +:+ "_" +:+ pretty n.

(** The entry is an error. *)
Definition is_error_entry (entry : log_entry) : Prop :=
  match entry with
  | LogError _ => True
  | _ => False
  end.

(** * Properties *)

(** ** Conversions *)

Example int_of_plain : py_int (PyStr " -1_000 ") = Ok (-1000).
Proof. reflexivity. Qed.

Example int_of_word : py_int (PyStr "abc") = Raise ValueError.
Proof. reflexivity. Qed.

Example int_of_double_underscore : py_int (PyStr "1__0") = Raise ValueError.
Proof. reflexivity. Qed.

Example int_of_file_separator :
  py_int (PyStr (String "028" "5")) = Raise ValueError.
Proof. reflexivity. Qed.

Example str_of_negative : py_str (PyInt (-42)) = "-42".
Proof. reflexivity. Qed.

(** ** Pure readings of the loops *)

Lemma with_log_nil w : with_log w [] = w.
Proof. destruct w. unfold with_log. simpl. by rewrite app_nil_r. Qed.

Lemma with_log_app w l1 l2 :
  with_log (with_log w l1) l2 = with_log w (l1 ++ l2).
Proof. unfold with_log. simpl. by rewrite app_assoc. Qed.

Lemma offers_loop_run aff_id source df2 hash_pairs w :
  offers_loop aff_id source df2 hash_pairs w =
  (Ok (hash_pairs ∪ list_to_set (omap (pair_tuple aff_id source) df2)),
   with_log w (df2 ≫= pair_error aff_id source)).
Proof.
  revert hash_pairs w.
  induction df2 as [|row rest IH]; intros hash_pairs w; simpl.
  - rewrite with_log_nil. unfold ret. by rewrite (right_id_L ∅ (∪)).
  - unfold pair_tuple, pair_error.
    destruct (try_pair aff_id source row) as [[tuple|]|ex] eqn:Hbody; simpl.
    + rewrite IH. by rewrite (assoc_L (∪)).
    + by rewrite IH.
    + unfold bind, log. rewrite IH. unfold with_log. simpl.
      by rewrite <- app_assoc.
Qed.

Lemma clicks_loop_run df1 df2 hash_pairs w :
  clicks_loop df1 df2 hash_pairs w =
  (Ok (hash_pairs ∪ all_tuples df1 df2), with_log w (all_errors df1 df2)).
Proof.
  revert hash_pairs w.
  induction df1 as [|row rest IH]; intros hash_pairs w; simpl.
  - rewrite with_log_nil. unfold ret, all_tuples. simpl.
    by rewrite (right_id_L ∅ (∪)).
  - unfold bind. rewrite offers_loop_run, IH, with_log_app.
    unfold all_tuples, all_errors, click_tuples, click_errors. simpl.
    by rewrite list_to_set_app_L, (assoc_L (∪)).
Qed.

Lemma generate_run df1 df2 rows w :
  frames w !! df2 = Some rows →
  generate_aff_source_pairs df1 df2 w =
  (Ok (elements (all_tuples df1 (dropna_segment rows))),
   after_generate df1 df2 rows w).
Proof.
  intros Hdf.
  unfold generate_aff_source_pairs, dropna_inplace, bind, read_frame,
    write_frame. rewrite Hdf. simpl.
  rewrite lookup_insert_eq, clicks_loop_run. unfold ret, with_log. simpl.
  by rewrite (left_id_L ∅ (∪)).
Qed.

Lemma generate_unbound df1 df2 w :
  frames w !! df2 = None →
  generate_aff_source_pairs df1 df2 w = (Raise NameError, w).
Proof.
  intros Hdf.
  unfold generate_aff_source_pairs, dropna_inplace, bind, read_frame.
  by rewrite Hdf.
Qed.

(** When the [try] block yields a tuple. *)
Lemma try_pair_Some click row tuple :
  try_pair (current_aff_id click) (current_source click) row = Ok (Some tuple)
  ↔ ∃ n, py_int (ssp_segment_id row) = Ok n ∧ tokens_of row ≠ ∅ ∧
         tuple = candidate click row n.
Proof.
  unfold try_pair, tokens_of, candidate.
  destruct (py_int (ssp_segment_id row)) as [n|ex].
  - case_decide as Hd.
    + split; [intros; discriminate|]. by intros (n' & _ & Hne & _).
    + split.
      * intros [= <-]. by exists n.
      * by intros (n' & [= <-] & _ & ->).
  - split; [intros; discriminate|]. intros (n' & ? & _). discriminate.
Qed.

Lemma try_pair_Raise aff_id source row ex :
  try_pair aff_id source row = Raise ex ↔ py_int (ssp_segment_id row) = Raise ex.
Proof.
  unfold try_pair.
  destruct (py_int (ssp_segment_id row)) as [n|ex'].
  - case_decide; split; intros; discriminate.
  - split; by intros [= ->].
Qed.

Lemma tokens_of_empty row :
  tokens_of row = ∅ ↔
  source_token_whitelist row = [] ∧ source_token_blacklist row = [].
Proof.
  unfold tokens_of. split.
  - intros He.
    destruct (source_token_whitelist row) as [|x l].
    + destruct (source_token_blacklist row) as [|y k]; [done|].
      exfalso. assert (y ∈ (∅ : gset string)) as Hy; [|by inversion Hy].
      rewrite <- He. apply elem_of_union_r, elem_of_list_to_set. by left.
    + exfalso. assert (x ∈ (∅ : gset string)) as Hx; [|by inversion Hx].
      rewrite <- He. apply elem_of_union_l, elem_of_list_to_set. by left.
  - intros [-> ->]. simpl. by rewrite (left_id_L ∅ (∪)).
Qed.

Lemma py_int_null v z : py_int v = Ok z → notnull v.
Proof. by destruct v. Qed.

Lemma elem_of_dropna_segment row rows :
  row ∈ dropna_segment rows ↔ row ∈ rows ∧ notnull (ssp_segment_id row).
Proof. unfold dropna_segment. rewrite list_elem_of_filter. tauto. Qed.

Lemma elem_of_all_tuples tuple df1 df2 :
  tuple ∈ all_tuples df1 df2 ↔
  ∃ row_df1 row_df2,
    row_df1 ∈ df1 ∧ row_df2 ∈ df2 ∧
    try_pair (current_aff_id row_df1) (current_source row_df1) row_df2
      = Ok (Some tuple).
Proof.
  unfold all_tuples, click_tuples.
  rewrite elem_of_list_to_set, list_elem_of_bind.
  split.
  - intros (c & Ht & Hc). apply list_elem_of_omap in Ht as (o & Ho & Ht).
    exists c, o. split_and!; [done..|].
    unfold pair_tuple in Ht.
    by destruct (try_pair _ _ o) as [[?|]|]; simplify_eq.
  - intros (c & o & Hc & Ho & Ht). exists c. split; [|done].
    apply list_elem_of_omap. exists o. split; [done|].
    unfold pair_tuple. by rewrite Ht.
Qed.

Lemma elem_of_generated tuple df1 rows :
  tuple ∈ elements (all_tuples df1 (dropna_segment rows)) ↔
  ∃ click offer n,
    click ∈ df1 ∧ offer ∈ rows ∧ notnull (ssp_segment_id offer) ∧
    py_int (ssp_segment_id offer) = Ok n ∧ tokens_of offer ≠ ∅ ∧
    tuple = candidate click offer n.
Proof.
  rewrite elem_of_elements, elem_of_all_tuples. split.
  - intros (c & o & Hc & Ho & Ht).
    apply elem_of_dropna_segment in Ho as [Ho Hnn].
    apply try_pair_Some in Ht as (n & Hn & Hne & ->).
    by exists c, o, n.
  - intros (c & o & n & Hc & Ho & Hnn & Hn & Hne & ->).
    exists c, o. split_and!; [done| |].
    + by apply elem_of_dropna_segment.
    + apply try_pair_Some. by exists n.
Qed.

Lemma elem_of_all_errors entry df1 df2 :
  entry ∈ all_errors df1 df2 ↔
  ∃ click offer ex,
    click ∈ df1 ∧ offer ∈ df2 ∧
    py_int (ssp_segment_id offer) = Raise ex ∧ entry = LogError ex.
Proof.
  unfold all_errors, click_errors.
  rewrite list_elem_of_bind. split.
  - intros (c & He & Hc). apply list_elem_of_bind in He as (o & He & Ho).
    unfold pair_error in He.
    destruct (try_pair _ _ o) as [?|ex] eqn:Hbody; [by inversion He|].
    apply list_elem_of_singleton in He as ->.
    apply try_pair_Raise in Hbody. by exists c, o, ex.
  - intros (c & o & ex & Hc & Ho & Hex & ->).
    exists c. split; [|done]. apply list_elem_of_bind. exists o.
    split; [|done]. unfold pair_error.
    apply (try_pair_Raise (current_aff_id c) (current_source c)) in Hex.
    rewrite Hex. by left.
Qed.

(** Both results of the cross product respect permutations of the inputs. *)
Lemma all_tuples_perm df1 df1' df2 df2' :
  df1 ≡ₚ df1' → df2 ≡ₚ df2' → all_tuples df1 df2 = all_tuples df1' df2'.
Proof.
  intros H1 H2. apply set_eq. intros tuple.
  rewrite !elem_of_all_tuples.
  split; intros (c & o & Hc & Ho & Ht); exists c, o; split_and!; try done.
  - by rewrite <- H1.
  - by rewrite <- H2.
  - by rewrite H1.
  - by rewrite H2.
Qed.

Lemma dropna_segment_perm rows rows' :
  rows ≡ₚ rows' → dropna_segment rows ≡ₚ dropna_segment rows'.
Proof. intros H. unfold dropna_segment. by rewrite H. Qed.

(** ** Candidate generation *)

Example generate_example :
  generate_aff_source_pairs [click1]
    0%nat (one_frame [offer_null_segment; offer1; offer_no_tokens; offer1])
  = (Ok [(PyInt 1, PyStr "fb", PyStr "A", PyInt 5, PyInt 10, PyStr "X",
          PyStr "seg")],
     one_frame [offer1; offer_no_tokens; offer1]).
Proof. vm_compute. reflexivity. Qed.

(** C5.  [generate_aff_source_pairs] returns a duplicate-free list; a tuple is
    in it exactly when it is the tuple
    [(aff_id, source, str(account_id), int(segment_id), offer_id, advertiser,
    name)] of some click and some offer of the cross product whose segment
    identifier is not null and converts to an integer, and whose whitelist
    and blacklist have a non-empty union.  So no tuple stems from an offer
    with a null segment identifier or with no token. *)
Theorem generate_candidates_cross_product df1 df2 rows w :
  frames w !! df2 = Some rows →
  ∃ pairs w',
    generate_aff_source_pairs df1 df2 w = (Ok pairs, w') ∧
    NoDup pairs ∧
    ∀ tuple, tuple ∈ pairs ↔
      ∃ click offer n,
        click ∈ df1 ∧ offer ∈ rows ∧ notnull (ssp_segment_id offer) ∧
        py_int (ssp_segment_id offer) = Ok n ∧ tokens_of offer ≠ ∅ ∧
        tuple = candidate click offer n.
Proof.
  intros Hdf. eexists _, _. split; [by apply generate_run|].
  split; [apply NoDup_elements|]. intros tuple. apply elem_of_generated.
Qed.

Lemma generate_candidates_cross_product_witness :
  frames (one_frame [offer_null_segment; offer1]) !! 0%nat
    = Some [offer_null_segment; offer1] ∧
  ∃ pairs w',
    generate_aff_source_pairs [click1; click2] 0%nat
      (one_frame [offer_null_segment; offer1]) = (Ok pairs, w') ∧
    NoDup pairs ∧
    ∀ tuple, tuple ∈ pairs ↔
      ∃ click offer n,
        click ∈ [click1; click2] ∧ offer ∈ [offer_null_segment; offer1] ∧
        notnull (ssp_segment_id offer) ∧
        py_int (ssp_segment_id offer) = Ok n ∧ tokens_of offer ≠ ∅ ∧
        tuple = candidate click offer n.
Proof.
  split; [reflexivity|].
  apply (generate_candidates_cross_product [click1; click2] 0%nat
           [offer_null_segment; offer1]).
  reflexivity.
Defined.

Example generate_logs_bad_segment :
  generate_aff_source_pairs [click1]
    0%nat (one_frame [offer_bad_segment; offer1])
  = (Ok [(PyInt 1, PyStr "fb", PyStr "A", PyInt 5, PyInt 10, PyStr "X",
          PyStr "seg")],
     World {[ 0%nat := [offer_bad_segment; offer1] ]} None
           [LogError ValueError]).
Proof. vm_compute. reflexivity. Qed.

(** C7.  [generate_aff_source_pairs] returns whatever the rows hold: a pair
    whose segment identifier does not convert is skipped, that is, every
    returned tuple is the tuple of a click and an offer whose segment
    identifier converts, and the conversion's exception is one entry of the
    log; the tuple of every pair that does convert (and has a token) is in
    the result. *)
Theorem generate_skips_malformed_rows df1 df2 rows w :
  frames w !! df2 = Some rows →
  ∃ pairs w',
    generate_aff_source_pairs df1 df2 w = (Ok pairs, w') ∧
    (∀ click offer n,
       click ∈ df1 → offer ∈ rows →
       py_int (ssp_segment_id offer) = Ok n → tokens_of offer ≠ ∅ →
       candidate click offer n ∈ pairs) ∧
    (∀ tuple, tuple ∈ pairs →
       ∃ click offer n,
         click ∈ df1 ∧ offer ∈ rows ∧
         py_int (ssp_segment_id offer) = Ok n ∧ tokens_of offer ≠ ∅ ∧
         tuple = candidate click offer n) ∧
    (∀ click offer ex,
       click ∈ df1 → offer ∈ rows → notnull (ssp_segment_id offer) →
       py_int (ssp_segment_id offer) = Raise ex →
       LogError ex ∈ logged w') ∧
    logged w' = logged w ++ all_errors df1 (dropna_segment rows).
Proof.
  intros Hdf. eexists _, _. split; [by apply generate_run|].
  split_and!.
  - intros c o n Hc Ho Hn Hne. apply elem_of_generated.
    exists c, o, n. split_and!; try done. by eapply py_int_null.
  - intros tuple Ht.
    apply elem_of_generated in Ht as (c & o & n & ? & ? & _ & ? & ? & ?).
    by exists c, o, n.
  - intros c o ex Hc Ho Hnn Hex. simpl.
    apply elem_of_app. right. apply elem_of_all_errors.
    exists c, o, ex. split_and!; try done. by apply elem_of_dropna_segment.
  - done.
Qed.

Lemma generate_skips_malformed_rows_witness :
  frames (one_frame [offer_bad_segment; offer1]) !! 0%nat
    = Some [offer_bad_segment; offer1] ∧
  ∃ pairs w',
    generate_aff_source_pairs [click1] 0%nat
      (one_frame [offer_bad_segment; offer1]) = (Ok pairs, w') ∧
    (∀ click offer n,
       click ∈ [click1] → offer ∈ [offer_bad_segment; offer1] →
       py_int (ssp_segment_id offer) = Ok n → tokens_of offer ≠ ∅ →
       candidate click offer n ∈ pairs) ∧
    (∀ tuple, tuple ∈ pairs →
       ∃ click offer n,
         click ∈ [click1] ∧ offer ∈ [offer_bad_segment; offer1] ∧
         py_int (ssp_segment_id offer) = Ok n ∧ tokens_of offer ≠ ∅ ∧
         tuple = candidate click offer n) ∧
    (∀ click offer ex,
       click ∈ [click1] → offer ∈ [offer_bad_segment; offer1] →
       notnull (ssp_segment_id offer) →
       py_int (ssp_segment_id offer) = Raise ex →
       LogError ex ∈ logged w') ∧
    logged w' =
      logged (one_frame [offer_bad_segment; offer1]) ++
      all_errors [click1] (dropna_segment [offer_bad_segment; offer1]).
Proof.
  split; [reflexivity|].
  apply (generate_skips_malformed_rows [click1] 0%nat
           [offer_bad_segment; offer1]).
  reflexivity.
Defined.

(** C9.  Permuting the clicks, the offers, or both leaves the membership of
    the returned candidates as it is. *)
Theorem generate_permutation_invariant df1 df1' df2 df2' rows rows' w w' :
  df1 ≡ₚ df1' → rows ≡ₚ rows' →
  frames w !! df2 = Some rows → frames w' !! df2' = Some rows' →
  ∃ pairs pairs' w1 w1',
    generate_aff_source_pairs df1 df2 w = (Ok pairs, w1) ∧
    generate_aff_source_pairs df1' df2' w' = (Ok pairs', w1') ∧
    ∀ tuple, tuple ∈ pairs ↔ tuple ∈ pairs'.
Proof.
  intros Hp1 Hp2 Hdf Hdf'. eexists _, _, _, _.
  split; [by apply generate_run|]. split; [by apply generate_run|].
  intros tuple.
  by rewrite (all_tuples_perm df1 df1' (dropna_segment rows)
                (dropna_segment rows') Hp1 (dropna_segment_perm _ _ Hp2)).
Qed.

Lemma generate_permutation_invariant_witness :
  ([click1; click2] ≡ₚ [click2; click1]) ∧
  ([offer_null_segment; offer1; offer_bad_segment]
     ≡ₚ [offer_bad_segment; offer1; offer_null_segment]) ∧
  ∃ pairs pairs' w1 w1',
    generate_aff_source_pairs [click1; click2] 0%nat
      (one_frame [offer_null_segment; offer1; offer_bad_segment])
      = (Ok pairs, w1) ∧
    generate_aff_source_pairs [click2; click1] 0%nat
      (one_frame [offer_bad_segment; offer1; offer_null_segment])
      = (Ok pairs', w1') ∧
    ∀ tuple, tuple ∈ pairs ↔ tuple ∈ pairs'.
Proof.
  assert ([click1; click2] ≡ₚ [click2; click1]) as Hp1 by apply perm_swap.
  assert ([offer_null_segment; offer1; offer_bad_segment]
            ≡ₚ [offer_bad_segment; offer1; offer_null_segment]) as Hp2.
  { change ([offer_null_segment; offer1; offer_bad_segment]
              ≡ₚ rev [offer_null_segment; offer1; offer_bad_segment]).
    apply Permutation_rev. }
  split; [exact Hp1|]. split; [exact Hp2|].
  apply (generate_permutation_invariant _ _ 0%nat 0%nat _ _ _ _ Hp1 Hp2);
    reflexivity.
Defined.

(** ** Observed hashes *)

Lemma elem_of_hashes_loop tok rows total :
  tok ∈ hashes_loop rows total ↔
  tok ∈ total ∨
  ∃ row, row ∈ rows ∧ notnull (ssp_account_id row) ∧
         (tok ∈ source_token_whitelist row ∨ tok ∈ source_token_blacklist row).
Proof.
  revert total. induction rows as [|row rest IH]; intros total; simpl.
  - split; [by left|]. intros [?|(? & Hin & _)]; [done|by inversion Hin].
  - destruct (notnull (ssp_account_id row)) eqn:Hacc; rewrite IH.
    + rewrite !elem_of_union, !elem_of_list_to_set. split.
      * intros [[[?|?]|?]|(o & Ho & ?)].
        -- by left.
        -- right. exists row. rewrite Hacc. split_and!; [by left|done|by left].
        -- right. exists row. rewrite Hacc. split_and!; [by left|done|by right].
        -- right. exists o. split; [by right|done].
      * intros [?|(o & Ho & Hnn & Htok)]; [by left; left; left|].
        apply elem_of_cons in Ho as [->|Ho].
        -- left. destruct Htok; [left; by right|by right].
        -- right. by exists o.
    + split.
      * intros [?|(o & Ho & ?)]; [by left|].
        right. exists o. split; [by right|done].
      * intros [?|(o & Ho & Hnn & Htok)]; [by left|].
        apply elem_of_cons in Ho as [->|Ho].
        -- rewrite Hacc in Hnn. done.
        -- right. by exists o.
Qed.

Lemma get_current_hashes_run df rows w :
  frames w !! df = Some rows →
  get_current_hashes df w =
  (Ok (hashes_loop rows ∅),
   with_log w [LogInfo "All hashed sources" (size (hashes_loop rows ∅))]).
Proof.
  intros Hdf. unfold get_current_hashes, bind, read_frame. by rewrite Hdf.
Qed.

Lemma bind_ok {A B} (m : M A) (k : A → M B) w a w' :
  m w = (Ok a, w') → bind m k w = k a w'.
Proof. intros Hm. unfold bind. by rewrite Hm. Qed.

Lemma bind_raise {A B} (m : M A) (k : A → M B) w ex w' :
  m w = (Raise ex, w') → bind m k w = (Raise ex, w').
Proof. intros Hm. unfold bind. by rewrite Hm. Qed.

Lemma reference_run_run acc_rows aff_rows w :
  reference_run acc_rows aff_rows w =
  (Ok (elements (all_tuples aff_rows (dropna_segment acc_rows)),
       hashes_loop (dropna_segment acc_rows) ∅),
   after_reference_run acc_rows aff_rows w).
Proof.
  unfold reference_run.
  erewrite bind_ok; [|reflexivity].
  erewrite bind_ok; [|reflexivity].
  erewrite bind_ok; [|reflexivity].
  erewrite bind_ok; [|apply generate_run; simpl; apply lookup_insert_eq].
  erewrite bind_ok; [|reflexivity].
  erewrite bind_ok; [|apply get_current_hashes_run; simpl; apply lookup_insert_eq].
  unfold ret, with_log, after_reference_run. simpl.
  rewrite insert_insert_eq. f_equal. f_equal.
  rewrite <- !app_assoc. done.
Qed.

Lemma dropna_segment_idemp rows :
  dropna_segment (dropna_segment rows) = dropna_segment rows.
Proof.
  unfold dropna_segment. induction rows as [|row rest IH]; [done|].
  rewrite (filter_cons _ row rest). case_decide as Hd.
  - rewrite (filter_cons _ row (filter _ rest)), decide_True by done.
    by rewrite IH.
  - done.
Qed.

(** C10.  [generate_aff_source_pairs] writes to the DataFrame it was handed:
    after the call the object behind [df2] holds the rows with a segment
    identifier, in their order, and no other; every other DataFrame is as it
    was; and [get_current_hashes], given the same object afterwards, reads
    the rows that are left. *)
Theorem generate_drops_null_segments_in_place df1 df2 rows w :
  frames w !! df2 = Some rows →
  ∃ pairs w',
    generate_aff_source_pairs df1 df2 w = (Ok pairs, w') ∧
    frames w' !! df2 =
      Some (filter (λ row, notnull (ssp_segment_id row)) rows) ∧
    (∀ df, df ≠ df2 → frames w' !! df = frames w !! df) ∧
    (get_current_hashes df2 w').1 =
      Ok (hashes_loop (filter (λ row, notnull (ssp_segment_id row)) rows) ∅).
Proof.
  intros Hdf. eexists _, _. split; [by apply generate_run|].
  split_and!.
  - simpl. apply lookup_insert_eq.
  - intros df Hne. simpl. by apply lookup_insert_ne.
  - erewrite get_current_hashes_run; [done|]. simpl. apply lookup_insert_eq.
Qed.

Lemma generate_drops_null_segments_in_place_witness :
  frames (one_frame [offer_null_segment; offer1]) !! 0%nat
    = Some [offer_null_segment; offer1] ∧
  ∃ pairs w',
    generate_aff_source_pairs [click1] 0%nat
      (one_frame [offer_null_segment; offer1]) = (Ok pairs, w') ∧
    frames w' !! 0%nat =
      Some (filter (λ row, notnull (ssp_segment_id row))
              [offer_null_segment; offer1]) ∧
    (∀ df, df ≠ 0%nat →
       frames w' !! df
       = frames (one_frame [offer_null_segment; offer1]) !! df) ∧
    (get_current_hashes 0%nat w').1 =
      Ok (hashes_loop (filter (λ row, notnull (ssp_segment_id row))
                         [offer_null_segment; offer1]) ∅).
Proof.
  split; [reflexivity|].
  apply (generate_drops_null_segments_in_place [click1] 0%nat
           [offer_null_segment; offer1]).
  reflexivity.
Defined.

Example later_consumer_sees_filtered_frame :
  (let* _ := generate_aff_source_pairs [click1] 0%nat in
   read_frame 0%nat) (one_frame [offer_null_segment; offer1])
  = (Ok [offer1], one_frame [offer1]).
Proof. vm_compute. reflexivity. Qed.

(** C1, as stated, fails twice.  In the script the offer whose segment
    identifier is null has left the DataFrame before the tokens are
    collected, so its token ["h"] is not observed; and
    [get_current_hashes] on its own passes over a row whose account
    identifier is null, so the token ["k"] of that row is not observed. *)
Lemma observed_hashes_miss_tokens :
  ("h" ∈ source_token_whitelist offer_null_segment ∧
   (reference_run [offer_null_segment] [click1] initial).1 = Ok ([], ∅) ∧
   "h" ∉ (∅ : gset string)) ∧
  ("k" ∈ source_token_blacklist offer_null_account ∧
   (get_current_hashes 0%nat (one_frame [offer_null_account])).1 = Ok ∅ ∧
   "k" ∉ (∅ : gset string)).
Proof.
  split; (split; [by left|]); (split; [vm_compute; reflexivity|]);
    apply not_elem_of_empty.
Qed.

(** C1, amended.  [get_current_hashes] returns the tokens of the whitelists
    and blacklists of the rows with an account identifier that the
    DataFrame holds when it is called, and nothing else.  In the script
    [generate_aff_source_pairs] has gone over the same DataFrame before, so
    the observed tokens are those of the offers that have both a segment
    identifier and an account identifier. *)
Theorem observed_hashes_of_current_frame df rows w acc_rows aff_rows w0 :
  frames w !! df = Some rows →
  (∃ observed w',
     get_current_hashes df w = (Ok observed, w') ∧
     ∀ tok, tok ∈ observed ↔
       ∃ offer, offer ∈ rows ∧ notnull (ssp_account_id offer) ∧
                (tok ∈ source_token_whitelist offer ∨
                 tok ∈ source_token_blacklist offer)) ∧
  (∃ pairs observed w',
     reference_run acc_rows aff_rows w0 = (Ok (pairs, observed), w') ∧
     ∀ tok, tok ∈ observed ↔
       ∃ offer, offer ∈ acc_rows ∧ notnull (ssp_segment_id offer) ∧
                notnull (ssp_account_id offer) ∧
                (tok ∈ source_token_whitelist offer ∨
                 tok ∈ source_token_blacklist offer)).
Proof.
  intros Hdf. split.
  - eexists _, _. split; [by apply get_current_hashes_run|].
    intros tok. rewrite elem_of_hashes_loop. split.
    + intros [Hin|?]; [by inversion Hin|done].
    + by right.
  - eexists _, _, _. split; [apply reference_run_run|].
    intros tok. rewrite elem_of_hashes_loop. split.
    + intros [Hin|(o & Ho & Hacc & Htok)]; [by inversion Hin|].
      apply elem_of_dropna_segment in Ho as [Ho Hseg]. by exists o.
    + intros (o & Ho & Hseg & Hacc & Htok). right. exists o.
      split; [by apply elem_of_dropna_segment|done].
Qed.

Lemma observed_hashes_of_current_frame_witness :
  frames (one_frame [offer_null_account; offer1]) !! 0%nat
    = Some [offer_null_account; offer1] ∧
  (∃ observed w',
     get_current_hashes 0%nat (one_frame [offer_null_account; offer1])
       = (Ok observed, w') ∧
     ∀ tok, tok ∈ observed ↔
       ∃ offer, offer ∈ [offer_null_account; offer1] ∧
                notnull (ssp_account_id offer) ∧
                (tok ∈ source_token_whitelist offer ∨
                 tok ∈ source_token_blacklist offer)) ∧
  (∃ pairs observed w',
     reference_run [offer_null_segment; offer1] [click1] initial
       = (Ok (pairs, observed), w') ∧
     ∀ tok, tok ∈ observed ↔
       ∃ offer, offer ∈ [offer_null_segment; offer1] ∧
                notnull (ssp_segment_id offer) ∧
                notnull (ssp_account_id offer) ∧
                (tok ∈ source_token_whitelist offer ∨
                 tok ∈ source_token_blacklist offer)).
Proof.
  split; [reflexivity|].
  apply (observed_hashes_of_current_frame 0%nat
           [offer_null_account; offer1]).
  reflexivity.
Defined.

(** ** Offers without a segment identifier *)

Lemma reference_run_dropna acc_rows aff_rows w :
  reference_run acc_rows aff_rows w
  = reference_run (dropna_segment acc_rows) aff_rows w.
Proof.
  rewrite !reference_run_run. unfold after_reference_run.
  by rewrite !dropna_segment_idemp.
Qed.

Example null_segment_offer_leaves_no_trace :
  reference_run [offer_null_segment; offer1] [click1] initial
  = reference_run [offer1] [click1] initial.
Proof. vm_compute. reflexivity. Qed.

(** C8.  An offer whose segment identifier is null adds nothing to the
    script: the run on the offers is, in its values and in the state it
    leaves, the run on the offers without those rows, and so is the whole
    script; every generated tuple stems from an offer with a segment
    identifier, and every observed token is a whitelist or blacklist token
    of an offer with a segment identifier: a token that only offers without
    a segment identifier carry is not observed. *)
Theorem null_segment_offers_contribute_nothing
    (hashtext : string → Z) acc_rows aff_rows w :
  reference_run acc_rows aff_rows w
    = reference_run (filter (λ row, notnull (ssp_segment_id row)) acc_rows)
        aff_rows w ∧
  main hashtext acc_rows aff_rows w
    = main hashtext (filter (λ row, notnull (ssp_segment_id row)) acc_rows)
        aff_rows w ∧
  ∃ pairs observed w',
    reference_run acc_rows aff_rows w = (Ok (pairs, observed), w') ∧
    (∀ tuple, tuple ∈ pairs →
       ∃ click offer n,
         click ∈ aff_rows ∧ offer ∈ acc_rows ∧
         notnull (ssp_segment_id offer) ∧ tuple = candidate click offer n) ∧
    (∀ tok, tok ∈ observed →
       ∃ offer,
         offer ∈ acc_rows ∧ notnull (ssp_segment_id offer) ∧
         (tok ∈ source_token_whitelist offer ∨
          tok ∈ source_token_blacklist offer)) ∧
    (∀ tok,
       (∀ offer, offer ∈ acc_rows → tok ∈ tokens_of offer →
                 ¬ notnull (ssp_segment_id offer)) →
       tok ∉ observed).
Proof.
  split; [apply reference_run_dropna|].
  split.
  { unfold main, bind. fold (dropna_segment acc_rows).
    by rewrite <- reference_run_dropna. }
  eexists _, _, _. split; [apply reference_run_run|]. split_and!.
  - intros tuple Ht.
    apply elem_of_generated in Ht as (c & o & n & ? & ? & ? & ? & ? & ?).
    by exists c, o, n.
  - intros tok Htok.
    apply elem_of_hashes_loop in Htok as [Hin|(o & Ho & _ & Htok)];
      [by inversion Hin|].
    apply elem_of_dropna_segment in Ho as [Ho Hseg]. by exists o.
  - intros tok Honly Htok.
    apply elem_of_hashes_loop in Htok as [Hin|(o & Ho & _ & Htok)];
      [by inversion Hin|].
    apply elem_of_dropna_segment in Ho as [Ho Hseg].
    apply (Honly o); [done| |done].
    unfold tokens_of. rewrite elem_of_union, !elem_of_list_to_set. done.
Qed.

(** ** The hash query and the assembled table *)

Lemma values_loop_omap data values :
  values_loop data values = values ++ omap literal_of data.
Proof.
  revert values. induction data as [|pr rest IH]; intros values; simpl.
  - by rewrite app_nil_r.
  - unfold literal_of at 1. destruct (literal_row pr) as [v|ex].
    + rewrite IH. by rewrite <- app_assoc.
    + apply IH.
Qed.

Lemma length_values_loop data :
  (length (values_loop data []) + uncoercible data = length data)%nat.
Proof.
  rewrite values_loop_omap. simpl. unfold uncoercible.
  induction data as [|pr rest IH]; [done|].
  rewrite (filter_cons _ pr rest). simpl.
  destruct (literal_of pr) as [v|] eqn:Hv; simpl.
  - f_equal. exact IH.
  - rewrite Nat.add_succ_r. f_equal. exact IH.
Qed.

Lemma tuple_of_hashed_row pr h : tuple_of (hashed_row pr h) = pr.
Proof. by destruct pr as [[[[[[??]?]?]?]?]?]. Qed.

Lemma tuple_of_zip pairs (hashes : list Z) :
  length pairs = length hashes →
  tuple_of <$> zip_with hashed_row pairs hashes = pairs.
Proof.
  revert hashes. induction pairs as [|pr rest IH]; intros [|h hs] Hlen;
    simpl in *; try done.
  rewrite tuple_of_hashed_row. f_equal. apply IH. lia.
Qed.

Lemma hash_of_zip pairs (hashes : list Z) :
  length pairs = length hashes →
  h_hash_value <$> zip_with hashed_row pairs hashes = PyInt <$> hashes.
Proof.
  revert hashes. induction pairs as [|pr rest IH]; intros [|h hs] Hlen;
    simpl in *; try done.
  f_equal. apply IH. lia.
Qed.

Section Hashing.

Variable hashtext : string → Z.

(** The four outcomes of [traffic_source_hash_pairs]. *)
Lemma traffic_run data w :
  traffic_source_hash_pairs hashtext data w =
  if decide (values_loop data [] = []) then (Raise ProgrammingError, w)
  else match g_pairs w with
       | None => (Raise NameError, w)
       | Some pairs =>
           if decide (length pairs = length (values_loop data []))
           then (Ok (zip_with hashed_row pairs
                       (hashtext ∘ hash_text <$> values_loop data [])),
                 with_log w [LogSuccess "TRAFFIC_SOURCE_HASH_PAIRS"])
           else (Raise ValueError, w)
       end.
Proof.
  unfold traffic_source_hash_pairs, timed, execute_sql_query.
  destruct (values_loop data []) as [|v values]; [done|].
  rewrite decide_False by done.
  unfold bind at 1. unfold bind at 1. simpl. unfold read_pairs.
  destruct (g_pairs w) as [pairs|] eqn:Hg; [|by unfold bind; rewrite Hg].
  unfold bind. rewrite Hg. unfold data_frame. simpl.
  rewrite length_fmap. case_decide; done.
Qed.

Lemma traffic_ok data pairs w rows w' :
  g_pairs w = Some pairs →
  traffic_source_hash_pairs hashtext data w = (Ok rows, w') →
  values_loop data [] ≠ [] ∧
  length pairs = length (values_loop data []) ∧
  rows = zip_with hashed_row pairs
           (hashtext ∘ hash_text <$> values_loop data []) ∧
  w' = with_log w [LogSuccess "TRAFFIC_SOURCE_HASH_PAIRS"].
Proof.
  intros Hg. rewrite traffic_run, Hg.
  destruct (decide (values_loop data [] = [])) as [|Hne];
    [intros; discriminate|].
  destruct (decide (length pairs = length (values_loop data [])))
    as [Hlen|]; [|intros; discriminate].
  by intros [= <- <-].
Qed.

(** A candidate that does not convert makes the call on the global
    [pairs] raise. *)
Lemma traffic_raises_on_uncoercible pairs w :
  g_pairs w = Some pairs →
  (0 < uncoercible pairs)%nat →
  ∃ ex, traffic_source_hash_pairs hashtext pairs w = (Raise ex, w).
Proof.
  intros Hg Hbad. rewrite traffic_run, Hg.
  pose proof (length_values_loop pairs) as Hlen.
  destruct (decide (values_loop pairs [] = [])); [by eexists|].
  rewrite decide_False by lia. by eexists.
Qed.

(** When every candidate converts and there is one at least, the call on
    the global [pairs] returns one row per candidate. *)
Lemma traffic_all_coercible pairs w :
  g_pairs w = Some pairs →
  pairs ≠ [] →
  uncoercible pairs = 0%nat →
  traffic_source_hash_pairs hashtext pairs w =
  (Ok (zip_with hashed_row pairs
         (hashtext ∘ hash_text <$> values_loop pairs [])),
   with_log w [LogSuccess "TRAFFIC_SOURCE_HASH_PAIRS"]).
Proof.
  intros Hg Hne Hbad. rewrite traffic_run, Hg.
  pose proof (length_values_loop pairs) as Hlen.
  rewrite Hbad, Nat.add_0_r in Hlen.
  rewrite decide_False, decide_True; [done|done|].
  intros Hnil. rewrite Hnil in Hlen. by destruct pairs.
Qed.

End Hashing.

Lemma uncoercible_cons pr rest :
  uncoercible (pr :: rest) = 0%nat →
  (∃ v, literal_row pr = Ok v) ∧ uncoercible rest = 0%nat.
Proof.
  unfold uncoercible, literal_of. rewrite (filter_cons _ pr rest).
  destruct (literal_row pr) as [v|ex].
  - rewrite decide_False by done. intros Hz. split; [by exists v|done].
  - rewrite decide_True by done. done.
Qed.

(** In a table zipped from the candidates and the hashes of their own
    literal rows, every row carries the hash of its own tuple. *)
Lemma zip_aligned (f : sql_row → Z) pairs i row :
  uncoercible pairs = 0%nat →
  zip_with hashed_row pairs (f <$> omap literal_of pairs) !! i = Some row →
  ∃ v, pairs !! i = Some (tuple_of row) ∧
       literal_row (tuple_of row) = Ok v ∧ h_hash_value row = PyInt (f v).
Proof.
  revert i. induction pairs as [|pr rest IH]; intros i Hbad Hrow;
    [by destruct i|].
  apply uncoercible_cons in Hbad as [[v Hv] Hbad].
  simpl in Hrow. unfold literal_of at 1 in Hrow. rewrite Hv in Hrow.
  destruct i as [|i]; simpl in Hrow.
  - injection Hrow as <-. rewrite tuple_of_hashed_row. by exists v.
  - by apply IH.
Qed.

Example hash_text_example :
  hash_text <$> values_loop [cand_good; cand_bad; cand_other] []
  = ["1_fb_A_5"; "2_tw_A_5"].
Proof. reflexivity. Qed.

Example traffic_example :
  (traffic_source_hash_pairs toy_hash [cand_good; cand_other]
     (with_pairs [cand_good; cand_other])).1
  = Ok [hashed_row cand_good 8; hashed_row cand_other 8].
Proof. reflexivity. Qed.

(** C2.  On a list with one candidate that does not convert and one that
    does, [traffic_source_hash_pairs] does not return the one row that is
    left: the hash column has one entry, the columns read from [pairs] have
    two, and the constructor of the DataFrame raises. *)
Theorem recompute_hashes_raises_on_uncoercible (hashtext : string → Z) :
  uncoercible [cand_bad; cand_good] = 1%nat ∧
  length (values_loop [cand_bad; cand_good] []) = 1%nat ∧
  traffic_source_hash_pairs hashtext [cand_bad; cand_good]
    (with_pairs [cand_bad; cand_good])
  = (Raise ValueError, with_pairs [cand_bad; cand_good]).
Proof. split_and!; reflexivity. Qed.

(** ** Empty intermediate results *)

Lemma generate_no_clicks df2 rows w :
  frames w !! df2 = Some rows →
  (generate_aff_source_pairs [] df2 w).1 = Ok [].
Proof. intros Hdf. by rewrite (generate_run [] df2 rows w Hdf). Qed.

Lemma generate_no_offers df1 df2 w :
  frames w !! df2 = Some [] →
  (generate_aff_source_pairs df1 df2 w).1 = Ok [].
Proof.
  intros Hdf. rewrite (generate_run df1 df2 [] w Hdf). simpl.
  replace (all_tuples df1 (dropna_segment [])) with (∅ : gset CandidateTuple);
    [done|].
  apply set_eq. intros tuple. rewrite elem_of_all_tuples. split.
  - intros Hin. by inversion Hin.
  - intros (? & ? & _ & Hin & _). by inversion Hin.
Qed.

Lemma rehash_loop_filter hashed_results hashed_list rows :
  rehash_loop hashed_results hashed_list rows =
  rows ++ (resolved_row <$>
             filter (λ row, py_str (h_hash_value row) ∈ hashed_list)
               hashed_results).
Proof.
  revert rows. induction hashed_results as [|row rest IH]; intros rows; simpl.
  - by rewrite app_nil_r.
  - rewrite (filter_cons _ row rest). case_decide.
    + rewrite IH. by rewrite <- app_assoc.
    + apply IH.
Qed.

Lemma rehash_loop_no_rows hashed_list : rehash_loop [] hashed_list [] = [].
Proof. done. Qed.

Lemma rehash_loop_no_hashes hashed_results :
  rehash_loop hashed_results ∅ [] = [].
Proof.
  rewrite rehash_loop_filter. simpl.
  induction hashed_results as [|row rest IH]; [done|].
  rewrite (filter_cons _ row rest), decide_False; [done|].
  apply not_elem_of_empty.
Qed.

Section Reconcile.

Variable hashtext : string → Z.

Lemma rehashed_sources_run hashed_list w :
  rehashed_sources hashtext hashed_list w =
  match g_pairs w with
  | None => (Raise NameError, w)
  | Some pairs =>
      match traffic_source_hash_pairs hashtext pairs w with
      | (Ok hashed_results, w1) =>
          let rows := rehash_loop hashed_results hashed_list [] in
          (Ok rows,
           with_log w1 [LogInfo "All rehashed sources" (length rows)])
      | (Raise ex, w1) => (Raise ex, w1)
      end
  end.
Proof.
  unfold rehashed_sources, bind at 1, read_pairs.
  destruct (g_pairs w) as [pairs|]; [|done].
  unfold bind at 1.
  by destruct (traffic_source_hash_pairs hashtext pairs w) as [[?|?] ?].
Qed.

Lemma main_no_candidates acc_rows aff_rows w :
  all_tuples aff_rows (dropna_segment acc_rows) = ∅ →
  (main hashtext acc_rows aff_rows w).1 = Raise ProgrammingError.
Proof.
  intros Hnone. unfold main.
  erewrite bind_ok; [|apply reference_run_run].
  rewrite Hnone, elements_empty. simpl.
  erewrite bind_raise; [done|].
  rewrite rehashed_sources_run. simpl.
  rewrite Hnone, elements_empty. by rewrite traffic_run.
Qed.

End Reconcile.

(** C4.  An empty list of candidates is not carried through: with no row
    after [VALUES] the hash query is rejected, so
    [traffic_source_hash_pairs] raises on the empty list, and the script
    raises when there is no click and when there is no offer. *)
Theorem empty_candidates_abort_the_run
    (hashtext : string → Z) acc_rows aff_rows w :
  traffic_source_hash_pairs hashtext [] w = (Raise ProgrammingError, w) ∧
  (main hashtext acc_rows [] w).1 = Raise ProgrammingError ∧
  (main hashtext [] aff_rows w).1 = Raise ProgrammingError ∧
  (main hashtext [] [] initial).1 = Raise ProgrammingError.
Proof.
  split_and!.
  - by rewrite traffic_run.
  - by apply main_no_candidates.
  - apply main_no_candidates. apply set_eq. intros tuple.
    rewrite elem_of_all_tuples. split.
    + intros (? & ? & _ & Hin & _). by inversion Hin.
    + intros Hin. by inversion Hin.
  - by apply main_no_candidates.
Qed.

(** ** Reconciliation *)

Lemma resolved_tuple_row row : resolved_tuple (resolved_row row) = tuple_of row.
Proof. done. Qed.

Lemma resolved_row_inj row row' :
  resolved_row row = resolved_row row' → row = row'.
Proof. destruct row, row'. intros [=]. by simplify_eq. Qed.

Example rehash_loop_example :
  rehash_loop
    [hashed_row cand_good 8; hashed_row cand_other 9; hashed_row cand_good 8]
    {[ "8" ]} []
  = [resolved_row (hashed_row cand_good 8);
     resolved_row (hashed_row cand_good 8)].
Proof. vm_compute. reflexivity. Qed.

(** C6.  The loop of [rehashed_sources] returns, in the order of the input,
    the rows whose [str(hash_value)] is in the observed set, each with its
    eight fields as they are; a row of the input is returned exactly when
    its hash is observed, and every returned row is a row of the input.
    [rehashed_sources] applies this loop to the table that
    [traffic_source_hash_pairs] returns. *)
Theorem reconcile_keeps_observed_rows
    (hashtext : string → Z) hashed_results hashed_list w :
  rehash_loop hashed_results hashed_list [] =
    resolved_row <$>
      filter (λ row, py_str (h_hash_value row) ∈ hashed_list) hashed_results ∧
  (∀ row, row ∈ hashed_results →
     (resolved_row row ∈ rehash_loop hashed_results hashed_list [] ↔
      py_str (h_hash_value row) ∈ hashed_list)) ∧
  (∀ out, out ∈ rehash_loop hashed_results hashed_list [] →
     ∃ row, row ∈ hashed_results ∧ out = resolved_row row ∧
            py_str (r_hash_value out) ∈ hashed_list) ∧
  rehash_loop hashed_results hashed_list []
    `sublist_of` (resolved_row <$> hashed_results) ∧
  (∀ row,
     r_hash_value (resolved_row row) = h_hash_value row ∧
     r_offer_id (resolved_row row) = h_offer_id row ∧
     r_aff_id (resolved_row row) = h_aff_id row ∧
     r_source (resolved_row row) = h_source row ∧
     r_account_id (resolved_row row) = h_account_id row ∧
     r_segment_id (resolved_row row) = h_segment_id row ∧
     r_advertiser (resolved_row row) = h_advertiser row ∧
     r_segment_name (resolved_row row) = h_segment_name row) ∧
  rehashed_sources hashtext hashed_list w =
    match
      (let* pairs := read_pairs in
       traffic_source_hash_pairs hashtext pairs) w
    with
    | (Ok hashed, w1) =>
        (Ok (rehash_loop hashed hashed_list []),
         with_log w1 [LogInfo "All rehashed sources"
                        (length (rehash_loop hashed hashed_list []))])
    | (Raise ex, w1) => (Raise ex, w1)
    end.
Proof.
  rewrite rehash_loop_filter. simpl. split_and!.
  - done.
  - intros row Hrow. rewrite list_elem_of_fmap. split.
    + intros (row' & Heq & Hin). apply resolved_row_inj in Heq as <-.
      by apply list_elem_of_filter in Hin as [? _].
    + intros Hobs. exists row. split; [done|].
      by apply list_elem_of_filter.
  - intros out Hout. apply list_elem_of_fmap in Hout as (row & -> & Hin).
    apply list_elem_of_filter in Hin as [Hobs Hin]. by exists row.
  - apply fmap_sublist, sublist_filter.
  - done.
  - rewrite rehashed_sources_run. unfold bind, read_pairs.
    destruct (g_pairs w) as [pairs|]; [|done].
    destruct (traffic_source_hash_pairs hashtext pairs w) as [[hashed|ex] w1];
      [|done].
    simpl. by rewrite !rehash_loop_filter.
Qed.

Example main_example :
  (main toy_hash [offer_match] [click1] initial).1
  = Ok [Resolved (PyInt 8) (PyInt 10) (PyInt 1) (PyStr "fb") (PyStr "A")
          (PyInt 5) (PyStr "X") (PyStr "seg")].
Proof. vm_compute. reflexivity. Qed.

(** ** The global [pairs] *)

Example traffic_reads_global_pairs :
  (traffic_source_hash_pairs toy_hash [cand_other]
     (with_pairs [cand_good])).1
  = Ok [hashed_row cand_good (toy_hash "2_tw_A_5")].
Proof. reflexivity. Qed.

Example traffic_without_global_pairs :
  traffic_source_hash_pairs toy_hash [cand_good] initial
  = (Raise NameError, initial).
Proof. reflexivity. Qed.

(** C3.  With the global [pairs] bound, whatever [data] is passed,
    [traffic_source_hash_pairs] returns a table as soon as [data] gives as
    many literal rows as [pairs] has tuples (and one at least): its seven
    tuple columns are the tuples of [pairs] and its hash column is the
    hashes of the literal rows of [data]; in every other case it raises.
    When [data] is [pairs] itself, and every candidate converts, the table
    is returned and every row carries the hash of its own tuple.
    [rehashed_sources] takes its candidates from the global too: it calls
    [traffic_source_hash_pairs] on [pairs], and the rows it returns are
    tuples of [pairs].  With the global unbound neither function returns. *)
Theorem traffic_columns_come_from_global_pairs
    (hashtext : string → Z) data pairs hashed_list w w0 :
  g_pairs w = Some pairs →
  traffic_source_hash_pairs hashtext data w =
    (if decide (values_loop data [] = []) then (Raise ProgrammingError, w)
     else if decide (length pairs = length (values_loop data []))
          then (Ok (zip_with hashed_row pairs
                      (hashtext ∘ hash_text <$> values_loop data [])),
                with_log w [LogSuccess "TRAFFIC_SOURCE_HASH_PAIRS"])
          else (Raise ValueError, w)) ∧
  (pairs ≠ [] → uncoercible pairs = 0%nat →
   ∃ rows,
     traffic_source_hash_pairs hashtext pairs w
       = (Ok rows, with_log w [LogSuccess "TRAFFIC_SOURCE_HASH_PAIRS"]) ∧
     tuple_of <$> rows = pairs ∧
     rehashed_sources hashtext hashed_list w
       = (Ok (rehash_loop rows hashed_list []),
          with_log w [LogSuccess "TRAFFIC_SOURCE_HASH_PAIRS";
                      LogInfo "All rehashed sources"
                        (length (rehash_loop rows hashed_list []))])) ∧
  rehashed_sources hashtext hashed_list w =
    match traffic_source_hash_pairs hashtext pairs w with
    | (Ok hashed, w1) =>
        (Ok (rehash_loop hashed hashed_list []),
         with_log w1 [LogInfo "All rehashed sources"
                        (length (rehash_loop hashed hashed_list []))])
    | (Raise ex, w1) => (Raise ex, w1)
    end ∧
  (∀ rows w',
     traffic_source_hash_pairs hashtext data w = (Ok rows, w') →
     tuple_of <$> rows = pairs ∧
     h_hash_value <$> rows
       = PyInt ∘ hashtext ∘ hash_text <$> values_loop data [] ∧
     length (values_loop data []) = length pairs) ∧
  (∀ rows w' i row,
     traffic_source_hash_pairs hashtext pairs w = (Ok rows, w') →
     rows !! i = Some row →
     ∃ v, pairs !! i = Some (tuple_of row) ∧
          literal_row (tuple_of row) = Ok v ∧
          h_hash_value row = PyInt (hashtext (hash_text v))) ∧
  (∀ out w',
     rehashed_sources hashtext hashed_list w = (Ok out, w') →
     ∀ row, row ∈ out → resolved_tuple row ∈ pairs) ∧
  (g_pairs w0 = None →
     (∃ ex, traffic_source_hash_pairs hashtext data w0 = (Raise ex, w0)) ∧
     rehashed_sources hashtext hashed_list w0 = (Raise NameError, w0)).
Proof.
  intros Hg. split_and!.
  - by rewrite traffic_run, Hg.
  - intros Hne Hbad.
    pose proof (traffic_all_coercible hashtext pairs w Hg Hne Hbad) as Hrun.
    eexists. split; [exact Hrun|]. split.
    + apply tuple_of_zip. rewrite length_fmap.
      pose proof (length_values_loop pairs) as Hlen. lia.
    + rewrite rehashed_sources_run, Hg, Hrun. unfold with_log. simpl.
      by rewrite <- app_assoc.
  - by rewrite rehashed_sources_run, Hg.
  - intros rows w' Hrun.
    destruct (traffic_ok hashtext data pairs w rows w' Hg Hrun)
      as (_ & Hlen & -> & _).
    split_and!.
    + apply tuple_of_zip. by rewrite length_fmap.
    + rewrite hash_of_zip by (by rewrite length_fmap).
      by rewrite <- list_fmap_compose.
    + done.
  - intros rows w' i row Hrun Hrow.
    destruct (traffic_ok hashtext pairs pairs w rows w' Hg Hrun)
      as (_ & Hlen & -> & _).
    pose proof (length_values_loop pairs) as Hsum.
    rewrite values_loop_omap in Hrow. simpl in Hrow.
    apply (zip_aligned (hashtext ∘ hash_text)) in Hrow; [done|lia].
  - intros out w' Hrun row Hrow.
    rewrite rehashed_sources_run, Hg in Hrun.
    destruct (traffic_source_hash_pairs hashtext pairs w)
      as [[hashed|ex] w1] eqn:Htraffic; [|discriminate].
    injection Hrun as <- _.
    rewrite rehash_loop_filter in Hrow. simpl in Hrow.
    apply list_elem_of_fmap in Hrow as (hrow & -> & Hin).
    apply list_elem_of_filter in Hin as [_ Hin].
    destruct (traffic_ok hashtext pairs pairs w hashed w1 Hg Htraffic)
      as (_ & Hlen & -> & _).
    rewrite resolved_tuple_row, <- (tuple_of_zip pairs
      (hashtext ∘ hash_text <$> values_loop pairs []))
      by (by rewrite length_fmap).
    by apply list_elem_of_fmap_2.
  - intros Hnone. split.
    + rewrite traffic_run, Hnone.
      destruct (decide (values_loop data [] = [])); by eexists.
    + by rewrite rehashed_sources_run, Hnone.
Qed.

Lemma traffic_columns_come_from_global_pairs_witness :
  g_pairs (with_pairs [cand_good]) = Some [cand_good] ∧
  traffic_source_hash_pairs toy_hash [cand_other] (with_pairs [cand_good])
    = (Ok [hashed_row cand_good (toy_hash "2_tw_A_5")],
       with_log (with_pairs [cand_good])
         [LogSuccess "TRAFFIC_SOURCE_HASH_PAIRS"]) ∧
  (∃ rows,
     traffic_source_hash_pairs toy_hash [cand_good] (with_pairs [cand_good])
       = (Ok rows, with_log (with_pairs [cand_good])
                     [LogSuccess "TRAFFIC_SOURCE_HASH_PAIRS"]) ∧
     tuple_of <$> rows = [cand_good] ∧
     rehashed_sources toy_hash {[ "8" ]} (with_pairs [cand_good])
       = (Ok (rehash_loop rows {[ "8" ]} []),
          with_log (with_pairs [cand_good])
            [LogSuccess "TRAFFIC_SOURCE_HASH_PAIRS";
             LogInfo "All rehashed sources"
               (length (rehash_loop rows {[ "8" ]} []))])) ∧
  (∀ rows w',
     traffic_source_hash_pairs toy_hash [cand_other] (with_pairs [cand_good])
       = (Ok rows, w') →
     tuple_of <$> rows = [cand_good] ∧
     h_hash_value <$> rows
       = PyInt ∘ toy_hash ∘ hash_text <$> values_loop [cand_other] [] ∧
     length (values_loop [cand_other] []) = length [cand_good]) ∧
  (∀ rows w' i row,
     traffic_source_hash_pairs toy_hash [cand_good] (with_pairs [cand_good])
       = (Ok rows, w') →
     rows !! i = Some row →
     ∃ v, [cand_good] !! i = Some (tuple_of row) ∧
          literal_row (tuple_of row) = Ok v ∧
          h_hash_value row = PyInt (toy_hash (hash_text v))) ∧
  (∀ out w',
     rehashed_sources toy_hash {[ "8" ]} (with_pairs [cand_good])
       = (Ok out, w') →
     ∀ row, row ∈ out → resolved_tuple row ∈ [cand_good]) ∧
  rehashed_sources toy_hash {[ "8" ]} initial = (Raise NameError, initial).
Proof.
  destruct (traffic_columns_come_from_global_pairs toy_hash [cand_other]
              [cand_good] {[ "8" ]} (with_pairs [cand_good]) initial
              eq_refl)
    as (Hrun & Hok & _ & Hcols & Haligned & Hrows & Hunbound).
  split; [reflexivity|].
  split; [exact Hrun|].
  split; [apply Hok; [done|reflexivity]|].
  split; [exact Hcols|]. split; [exact Haligned|]. split; [exact Hrows|].
  apply Hunbound. reflexivity.
Defined.

(** * Further properties *)

(** ** Accounting for the cross product *)

Lemma length_pair_errors aff_id source df2 :
  length (df2 ≫= pair_error aff_id source)
  = length (filter (λ offer, segment_fails offer) df2).
Proof.
  induction df2 as [|row rest IH]; [done|].
  rewrite bind_cons, length_app, IH, (filter_cons _ row rest).
  unfold pair_error, try_pair.
  destruct (py_int (ssp_segment_id row)) as [n|ex] eqn:Hn.
  - assert (¬ segment_fails row)
      by (unfold segment_fails; rewrite Hn; simpl; tauto).
    destruct (decide (segment_fails row)) as [|_]; [done|]. by case_decide.
  - assert (segment_fails row : Prop)
      by (unfold segment_fails; by rewrite Hn).
    by destruct (decide (segment_fails row)).
Qed.

Lemma length_pair_tuples aff_id source df2 :
  length (omap (pair_tuple aff_id source) df2)
  = length (filter (λ offer, eligible offer) df2).
Proof.
  induction df2 as [|row rest IH]; [done|].
  rewrite (filter_cons _ row rest). simpl.
  unfold pair_tuple at 1, try_pair. fold (tokens_of row).
  destruct (py_int (ssp_segment_id row)) as [n|ex] eqn:Hn.
  - destruct (decide (tokens_of row = ∅)) as [He|Hne].
    + assert (¬ eligible row).
      { unfold eligible. rewrite Hn, bool_decide_eq_false_2; [simpl; tauto|].
        by intros ?. }
      destruct (decide (eligible row)) as [|_]; [done|]. exact IH.
    + assert (eligible row : Prop).
      { unfold eligible. by rewrite Hn, bool_decide_eq_true_2. }
      destruct (decide (eligible row)) as [_|]; [|done].
      simpl. f_equal. exact IH.
  - assert (¬ eligible row)
      by (unfold eligible; rewrite Hn; simpl; tauto).
    destruct (decide (eligible row)) as [|_]; [done|]. exact IH.
Qed.

Lemma length_all_errors df1 df2 :
  length (all_errors df1 df2)
  = (length df1 * length (filter (λ offer, segment_fails offer) df2))%nat.
Proof.
  unfold all_errors. induction df1 as [|click rest IH]; [done|].
  rewrite bind_cons, length_app, IH. unfold click_errors.
  by rewrite length_pair_errors.
Qed.

Lemma length_all_pairs df1 df2 :
  length (df1 ≫= click_tuples df2)
  = (length df1 * length (filter (λ offer, eligible offer) df2))%nat.
Proof.
  induction df1 as [|click rest IH]; [done|].
  rewrite bind_cons, length_app, IH. unfold click_tuples.
  by rewrite length_pair_tuples.
Qed.

Lemma eligible_notnull offer : eligible offer → notnull (ssp_segment_id offer).
Proof.
  unfold eligible.
  destruct (py_int (ssp_segment_id offer)) as [n|ex] eqn:Hn; [|done].
  intros _. by eapply py_int_null.
Qed.

Lemma filter_eligible_dropna rows :
  filter (λ offer, eligible offer) (dropna_segment rows)
  = filter (λ offer, eligible offer) rows.
Proof.
  unfold dropna_segment. induction rows as [|row rest IH]; [done|].
  rewrite (filter_cons (λ row, notnull _) row rest).
  rewrite (filter_cons (λ offer, eligible offer) row rest).
  destruct (decide (notnull (ssp_segment_id row))) as [Hnn|Hnull].
  - rewrite (filter_cons (λ offer, eligible offer) row (filter _ rest)).
    by rewrite IH.
  - rewrite decide_False; [exact IH|].
    intros He. by apply Hnull, eligible_notnull.
Qed.

(** X1.  The log of [generate_aff_source_pairs] grows by errors only, one
    for every click and every offer that has a segment identifier which
    [int] rejects. *)
Theorem generate_logs_one_error_per_pair df1 df2 rows w :
  frames w !! df2 = Some rows →
  ∃ pairs w' errors,
    generate_aff_source_pairs df1 df2 w = (Ok pairs, w') ∧
    logged w' = logged w ++ errors ∧
    Forall is_error_entry errors ∧
    length errors =
      (length df1 *
       length (filter (λ offer, segment_fails offer)
                 (filter (λ offer, notnull (ssp_segment_id offer)) rows)))%nat.
Proof.
  intros Hdf. eexists _, _, _. split; [by apply generate_run|].
  split; [done|]. split.
  - apply Forall_forall. intros entry Hin.
    apply elem_of_all_errors in Hin as (_ & _ & ex & _ & _ & _ & ->). done.
  - apply length_all_errors.
Qed.

Lemma generate_logs_one_error_per_pair_witness :
  frames (one_frame [offer_bad_segment; offer1; offer_null_segment]) !! 0%nat
    = Some [offer_bad_segment; offer1; offer_null_segment] ∧
  ∃ pairs w' errors,
    generate_aff_source_pairs [click1; click2] 0%nat
      (one_frame [offer_bad_segment; offer1; offer_null_segment])
      = (Ok pairs, w') ∧
    logged w'
      = logged (one_frame [offer_bad_segment; offer1; offer_null_segment])
        ++ errors ∧
    Forall is_error_entry errors ∧
    length errors =
      (length [click1; click2] *
       length (filter (λ offer, segment_fails offer)
                 (filter (λ offer, notnull (ssp_segment_id offer))
                    [offer_bad_segment; offer1; offer_null_segment])))%nat.
Proof.
  split; [reflexivity|].
  apply (generate_logs_one_error_per_pair [click1; click2] 0%nat
           [offer_bad_segment; offer1; offer_null_segment]).
  reflexivity.
Defined.

(** X2.  [generate_aff_source_pairs] returns at most one tuple for every
    click and every offer whose segment identifier converts and that has a
    token. *)
Theorem generate_size_bound df1 df2 rows w :
  frames w !! df2 = Some rows →
  ∃ pairs w',
    generate_aff_source_pairs df1 df2 w = (Ok pairs, w') ∧
    (length pairs
     ≤ length df1 * length (filter (λ offer, eligible offer) rows))%nat.
Proof.
  intros Hdf. eexists _, _. split; [by apply generate_run|].
  rewrite <- filter_eligible_dropna, <- length_all_pairs.
  apply submseteq_length, NoDup_submseteq; [apply NoDup_elements|].
  intros tuple Hin. apply elem_of_elements in Hin.
  by apply elem_of_list_to_set in Hin.
Qed.

Lemma generate_size_bound_witness :
  frames (one_frame [offer1; offer1; offer_no_tokens]) !! 0%nat
    = Some [offer1; offer1; offer_no_tokens] ∧
  ∃ pairs w',
    generate_aff_source_pairs [click1; click2] 0%nat
      (one_frame [offer1; offer1; offer_no_tokens]) = (Ok pairs, w') ∧
    (length pairs
     ≤ length [click1; click2] *
       length (filter (λ offer, eligible offer)
                 [offer1; offer1; offer_no_tokens]))%nat.
Proof.
  split; [reflexivity|].
  apply (generate_size_bound [click1; click2] 0%nat
           [offer1; offer1; offer_no_tokens]).
  reflexivity.
Defined.

(** ** [int] reads back what [str] writes *)

Lemma digit_of_range a d :
  digit_of a = Some d → (48 ≤ N_of_ascii a ≤ 57)%N ∧ d = Z.of_N (N_of_ascii a) - 48.
Proof.
  unfold digit_of.
  destruct (48 <=? N_of_ascii a)%N eqn:H1; [|done].
  destruct (N_of_ascii a <=? 57)%N eqn:H2; [|done].
  simpl. intros [= <-].
  apply N.leb_le in H1. apply N.leb_le in H2. done.
Qed.

Lemma digit_of_pretty_N_char d :
  (d < 10)%N → digit_of (pretty_N_char d) = Some (Z.of_N d).
Proof.
  intros Hd.
  assert (d = 0 ∨ d = 1 ∨ d = 2 ∨ d = 3 ∨ d = 4 ∨ d = 5 ∨ d = 6 ∨ d = 7
          ∨ d = 8 ∨ d = 9)%N as Hcases by lia.
  repeat (destruct Hcases as [->|Hcases]; [reflexivity|]).
  by subst.
Qed.

Lemma digit_not_space a d : digit_of a = Some d → is_space a = false.
Proof.
  intros Hd. apply digit_of_range in Hd as [[H1 H2] _]. unfold is_space.
  apply orb_false_iff. split.
  - apply andb_false_iff. right. apply N.leb_gt. lia.
  - apply N.eqb_neq. lia.
Qed.

(** The characters that [pretty_N_go] puts before [s] are digits. *)
Lemma pretty_N_go_digits (P : ascii → Prop) x s :
  (∀ a d, digit_of a = Some d → P a) →
  Forall P (list_ascii_of_string s) →
  Forall P (list_ascii_of_string (pretty_N_go x s)).
Proof.
  intros HP. revert s.
  induction (N.lt_wf_0 x) as [x _ IH]; intros s Hs.
  assert (x = 0 ∨ 0 < x)%N as [->|Hpos] by lia.
  - by rewrite pretty_N_go_0.
  - rewrite pretty_N_go_step by done. apply IH.
    + by apply N.div_lt.
    + simpl. apply Forall_cons. split; [|done].
      eapply HP, digit_of_pretty_N_char. by apply N.mod_lt.
Qed.

(** Reading the digits of [x] on top of [acc] shifts [acc] and adds [x]. *)
Lemma parse_pretty_N_go x :
  (0 < x)%N →
  ∃ m, ∀ acc b s,
    parse_digits acc b (list_ascii_of_string (pretty_N_go x s))
    = parse_digits (acc * m + Z.of_N x) true (list_ascii_of_string s).
Proof.
  induction (N.lt_wf_0 x) as [x _ IH]. intros Hpos.
  destruct (decide (x `div` 10 = 0)%N) as [Hz|Hq%N.neq_0_lt_0].
  - exists 10. intros acc b s.
    rewrite pretty_N_go_step, Hz, pretty_N_go_0 by done. simpl.
    rewrite digit_of_pretty_N_char by (by apply N.mod_lt).
    assert (x `mod` 10 = x)%N as ->
      by (by apply N.mod_small, N.div_small_iff).
    f_equal. lia.
  - destruct (IH (x `div` 10)%N) as [m Hm]; [by apply N.div_lt|done|].
    exists (10 * m). intros acc b s.
    rewrite pretty_N_go_step, Hm by done. simpl.
    rewrite digit_of_pretty_N_char by (by apply N.mod_lt).
    assert (Z.of_N x = Z.of_N (10 * x `div` 10 + x `mod` 10)) as Hx
      by (f_equal; by apply N.div_mod).
    rewrite N2Z.inj_add, N2Z.inj_mul in Hx.
    f_equal. simpl Z.of_N in Hx. lia.
Qed.

Lemma lstrip_no_space l :
  Forall (λ a, is_space a = false) l → lstrip l = l.
Proof. intros Hl. destruct Hl as [|a l Ha _]; [done|]. simpl. by rewrite Ha. Qed.

Lemma strip_no_space l :
  Forall (λ a, is_space a = false) l → strip l = l.
Proof.
  intros Hl. unfold strip. rewrite (lstrip_no_space l Hl).
  rewrite lstrip_no_space; [apply rev_involutive|].
  apply Forall_forall. intros a Ha. rewrite Forall_forall in Hl.
  apply Hl, list_elem_of_In, in_rev. by apply list_elem_of_In.
Qed.

Lemma int_of_string_pretty_pos p :
  strip (list_ascii_of_string (pretty_N_go (N.pos p) "")) =
    list_ascii_of_string (pretty_N_go (N.pos p) "") ∧
  ∃ a l,
    list_ascii_of_string (pretty_N_go (N.pos p) "") = a :: l ∧
    is_Some (digit_of a) ∧
    parse_digits 0 false (a :: l) = Some (Z.pos p).
Proof.
  split.
  - apply strip_no_space, pretty_N_go_digits; [|done].
    intros a d. apply digit_not_space.
  - destruct (parse_pretty_N_go (N.pos p)) as [m Hm]; [done|].
    specialize (Hm 0 false ""). simpl in Hm.
    pose proof (pretty_N_go_digits (λ a, is_Some (digit_of a)) (N.pos p) "")
      as Hdigits.
    destruct (list_ascii_of_string (pretty_N_go (N.pos p) "")) as [|a l].
    + done.
    + exists a, l. split; [done|]. split; [|by rewrite Hm].
      assert (Forall (λ a, is_Some (digit_of a)) (a :: l)) as Hall
        by (apply Hdigits; [by eauto|done]).
      by apply Forall_cons in Hall as [? _].
Qed.

Lemma int_of_string_pretty z : int_of_string (pretty z) = Some z.
Proof.
  destruct z as [|p|p].
  - reflexivity.
  - unfold int_of_string, pretty, pretty_Z, pretty, pretty_positive, pretty,
      pretty_N. rewrite decide_False by done.
    destruct (int_of_string_pretty_pos p) as (-> & a & l & -> & [d Hd] & Hp).
    apply digit_of_range in Hd as Hrange. destruct Hrange as [[H1 H2] _].
    rewrite (proj2 (N.eqb_neq _ 43)) by lia.
    rewrite (proj2 (N.eqb_neq _ 45)) by lia. done.
  - unfold int_of_string, pretty, pretty_Z, pretty, pretty_positive, pretty,
      pretty_N. rewrite decide_False by done.
    destruct (int_of_string_pretty_pos p) as (Hstrip & a & l & Hl & _ & Hp).
    change ("-" +:+ pretty_N_go (N.pos p) "")
      with (String "-" (pretty_N_go (N.pos p) "")).
    simpl list_ascii_of_string. rewrite strip_no_space.
    + rewrite Hl. change (N_of_ascii "-" =? 43)%N with false.
      change (N_of_ascii "-" =? 45)%N with true. cbv iota. by rewrite Hp.
    + apply Forall_cons. split; [done|].
      apply pretty_N_go_digits; [|done]. intros ? ?. apply digit_not_space.
Qed.

Lemma py_int_py_str z : py_int (PyStr (py_str (PyInt z))) = Ok z.
Proof. simpl. by rewrite int_of_string_pretty. Qed.

(** ** More on candidate generation *)

Lemma try_pair_segment_as_text aff_id source offer :
  try_pair aff_id source (segment_as_text offer)
  = try_pair aff_id source offer.
Proof.
  unfold segment_as_text.
  destruct (ssp_segment_id offer) as [| |n|s] eqn:Hseg; try done.
  unfold try_pair. simpl. rewrite Hseg, int_of_string_pretty. done.
Qed.

Lemma notnull_segment_as_text offer :
  notnull (ssp_segment_id (segment_as_text offer))
  = notnull (ssp_segment_id offer).
Proof.
  unfold segment_as_text.
  by destruct (ssp_segment_id offer) as [| |n|s] eqn:Hseg; simpl; rewrite ?Hseg.
Qed.

Lemma dropna_segment_as_text rows :
  dropna_segment (segment_as_text <$> rows)
  = segment_as_text <$> dropna_segment rows.
Proof.
  unfold dropna_segment. induction rows as [|row rest IH]; [done|].
  rewrite fmap_cons, (filter_cons _ (segment_as_text row)),
    (filter_cons _ row rest), notnull_segment_as_text, IH.
  by case_decide.
Qed.

Lemma all_tuples_segment_as_text df1 rows :
  all_tuples df1 (segment_as_text <$> rows) = all_tuples df1 rows.
Proof.
  apply set_eq. intros tuple. rewrite !elem_of_all_tuples. split.
  - intros (c & o & Hc & Ho & Ht).
    apply list_elem_of_fmap in Ho as (o0 & -> & Ho0).
    rewrite try_pair_segment_as_text in Ht. by exists c, o0.
  - intros (c & o & Hc & Ho & Ht).
    exists c, (segment_as_text o). split_and!; [done| |].
    + by apply list_elem_of_fmap_2.
    + by rewrite try_pair_segment_as_text.
Qed.

(** X3.  Whether a segment identifier is an integer or the decimal text of
    that integer makes no difference to the candidates:
    [generate_aff_source_pairs] returns the same list for the offers and
    for the offers with every integer identifier written as text. *)
Theorem generate_reads_decimal_text df1 df2 df2' rows w w' :
  frames w !! df2 = Some rows →
  frames w' !! df2' = Some (segment_as_text <$> rows) →
  ∃ pairs w1 w1',
    generate_aff_source_pairs df1 df2 w = (Ok pairs, w1) ∧
    generate_aff_source_pairs df1 df2' w' = (Ok pairs, w1').
Proof.
  intros Hdf Hdf'. eexists _, _, _.
  split; [by apply generate_run|].
  rewrite (generate_run df1 df2' _ w' Hdf').
  by rewrite dropna_segment_as_text, all_tuples_segment_as_text.
Qed.

Lemma generate_reads_decimal_text_witness :
  frames (one_frame [offer1; offer_null_segment]) !! 0%nat
    = Some [offer1; offer_null_segment] ∧
  frames (one_frame (segment_as_text <$> [offer1; offer_null_segment]))
    !! 0%nat
    = Some (segment_as_text <$> [offer1; offer_null_segment]) ∧
  ∃ pairs w1 w1',
    generate_aff_source_pairs [click1] 0%nat
      (one_frame [offer1; offer_null_segment]) = (Ok pairs, w1) ∧
    generate_aff_source_pairs [click1] 0%nat
      (one_frame (segment_as_text <$> [offer1; offer_null_segment]))
      = (Ok pairs, w1').
Proof.
  split; [reflexivity|]. split; [reflexivity|].
  apply (generate_reads_decimal_text [click1] 0%nat 0%nat
           [offer1; offer_null_segment]); reflexivity.
Defined.

(** X4.  A second call of [generate_aff_source_pairs] on the same DataFrame
    returns the same list and finds nothing left to drop: the DataFrames
    are as the first call left them. *)
Theorem generate_twice df1 df2 rows w :
  frames w !! df2 = Some rows →
  ∃ pairs w1 w2,
    generate_aff_source_pairs df1 df2 w = (Ok pairs, w1) ∧
    generate_aff_source_pairs df1 df2 w1 = (Ok pairs, w2) ∧
    frames w2 = frames w1 ∧ g_pairs w2 = g_pairs w1.
Proof.
  intros Hdf. eexists _, _, _.
  split; [by apply generate_run|].
  erewrite generate_run; [|simpl; apply lookup_insert_eq].
  split; [by rewrite dropna_segment_idemp|]. simpl.
  by rewrite insert_insert_eq, dropna_segment_idemp.
Qed.

Lemma generate_twice_witness :
  frames (one_frame [offer_null_segment; offer1]) !! 0%nat
    = Some [offer_null_segment; offer1] ∧
  ∃ pairs w1 w2,
    generate_aff_source_pairs [click1] 0%nat
      (one_frame [offer_null_segment; offer1]) = (Ok pairs, w1) ∧
    generate_aff_source_pairs [click1] 0%nat w1 = (Ok pairs, w2) ∧
    frames w2 = frames w1 ∧ g_pairs w2 = g_pairs w1.
Proof.
  split; [reflexivity|].
  apply (generate_twice [click1] 0%nat [offer_null_segment; offer1]).
  reflexivity.
Defined.

(** X5.  Clicks and offers only add candidates: when every click and every
    offer of one input is among those of another, every tuple returned for
    the first is returned for the second. *)
Theorem generate_monotone df1 df1' df2 df2' rows rows' w w' :
  df1 ⊆ df1' → rows ⊆ rows' →
  frames w !! df2 = Some rows → frames w' !! df2' = Some rows' →
  ∃ pairs pairs' w1 w1',
    generate_aff_source_pairs df1 df2 w = (Ok pairs, w1) ∧
    generate_aff_source_pairs df1' df2' w' = (Ok pairs', w1') ∧
    pairs ⊆ pairs'.
Proof.
  intros Hc Ho Hdf Hdf'. eexists _, _, _, _.
  split; [by apply generate_run|]. split; [by apply generate_run|].
  intros tuple. rewrite !elem_of_generated.
  intros (c & o & n & ? & ? & ?). exists c, o, n.
  split; [by apply Hc|]. split; [by apply Ho|done].
Qed.

Lemma generate_monotone_witness :
  [click1] ⊆ [click2; click1] ∧
  [offer1] ⊆ [offer1; offer_bad_segment] ∧
  ∃ pairs pairs' w1 w1',
    generate_aff_source_pairs [click1] 0%nat (one_frame [offer1])
      = (Ok pairs, w1) ∧
    generate_aff_source_pairs [click2; click1] 0%nat
      (one_frame [offer1; offer_bad_segment]) = (Ok pairs', w1') ∧
    pairs ⊆ pairs'.
Proof.
  assert ([click1] ⊆ [click2; click1]) as Hc
    by (intros c Hin; by right).
  assert ([offer1] ⊆ [offer1; offer_bad_segment]) as Ho
    by (intros o Hin; apply list_elem_of_singleton in Hin as ->; by left).
  split; [exact Hc|]. split; [exact Ho|].
  apply (generate_monotone [click1] [click2; click1] 0%nat 0%nat
           [offer1] [offer1; offer_bad_segment] _ _ Hc Ho); reflexivity.
Defined.

Lemma try_pair_same_fields aff_id source offer offer' :
  same_tuple_fields offer offer' →
  tokens_of offer ≠ ∅ → tokens_of offer' ≠ ∅ →
  try_pair aff_id source offer = try_pair aff_id source offer'.
Proof.
  intros (Hacc & Hseg & Hid & Hadv & Hname) Hne Hne'.
  unfold try_pair. rewrite Hacc, Hseg, Hid, Hadv, Hname.
  destruct (py_int (ssp_segment_id offer')) as [n|ex]; [|done].
  fold (tokens_of offer) (tokens_of offer').
  by rewrite !decide_False.
Qed.

(** X6.  A candidate is identified by its tuple fields, not by the tokens
    of the offer: an offer that repeats the tuple fields of an offer of the
    table adds no candidate, whatever its tokens (the two runs return the
    same candidates, up to their order), while its tokens are observed when
    it has a segment and an account identifier. *)
Theorem duplicate_offer_adds_no_candidate acc_rows aff_rows offer offer' w :
  offer ∈ acc_rows →
  same_tuple_fields offer offer' →
  tokens_of offer ≠ ∅ → tokens_of offer' ≠ ∅ →
  ∃ pairs pairs' observed observed' w1 w1',
    reference_run acc_rows aff_rows w = (Ok (pairs, observed), w1) ∧
    reference_run (offer' :: acc_rows) aff_rows w
      = (Ok (pairs', observed'), w1') ∧
    pairs ≡ₚ pairs' ∧
    observed ⊆ observed' ∧
    (notnull (ssp_segment_id offer') → notnull (ssp_account_id offer') →
     tokens_of offer' ⊆ observed').
Proof.
  intros Hin Hsame Hne Hne'. eexists _, _, _, _, _, _.
  split; [apply reference_run_run|]. split; [apply reference_run_run|].
  split_and!.
  - symmetry. apply NoDup_Permutation; [apply NoDup_elements..|].
    intros tuple.
    rewrite !elem_of_elements, !elem_of_all_tuples. split.
    + intros (c & o & Hc & Ho & Ht).
      apply elem_of_dropna_segment in Ho as [Ho Hnn].
      apply elem_of_cons in Ho as [->|Ho].
      * exists c, offer. split; [done|].
        rewrite (try_pair_same_fields _ _ offer offer') by done.
        split; [|done]. apply elem_of_dropna_segment. split; [done|].
        destruct Hsame as (_ & Hseg & _).
        apply try_pair_Some in Ht as (n & Hn & _).
        rewrite <- Hseg in Hn. by eapply py_int_null.
      * exists c, o. split; [done|]. split; [|done].
        by apply elem_of_dropna_segment.
    + intros (c & o & Hc & Ho & Ht).
      apply elem_of_dropna_segment in Ho as [Ho Hnn].
      exists c, o. split; [done|]. split; [|done].
      apply elem_of_dropna_segment. split; [by right|done].
  - intros tok. rewrite !elem_of_hashes_loop.
    intros [?|(o & Ho & ?)]; [by left|]. right. exists o.
    apply elem_of_dropna_segment in Ho as [Ho Hnn].
    split; [|done]. apply elem_of_dropna_segment. split; [by right|done].
  - intros Hseg Hacc tok Htok. apply elem_of_hashes_loop. right.
    exists offer'. split; [|split; [done|]].
    + apply elem_of_dropna_segment. split; [by left|done].
    + unfold tokens_of in Htok.
      by rewrite elem_of_union, !elem_of_list_to_set in Htok.
Qed.

Lemma duplicate_offer_adds_no_candidate_witness :
  offer1 ∈ [offer1] ∧
  same_tuple_fields offer1 (with_segment offer_match (PyStr " 5 ")) ∧
  tokens_of offer1 ≠ ∅ ∧
  tokens_of (with_segment offer_match (PyStr " 5 ")) ≠ ∅ ∧
  ∃ pairs pairs' observed observed' w1 w1',
    reference_run [offer1] [click1] initial = (Ok (pairs, observed), w1) ∧
    reference_run [with_segment offer_match (PyStr " 5 "); offer1] [click1]
      initial = (Ok (pairs', observed'), w1') ∧
    pairs ≡ₚ pairs' ∧
    observed ⊆ observed' ∧
    (notnull (ssp_segment_id (with_segment offer_match (PyStr " 5 "))) →
     notnull (ssp_account_id (with_segment offer_match (PyStr " 5 "))) →
     tokens_of (with_segment offer_match (PyStr " 5 ")) ⊆ observed').
Proof.
  assert (offer1 ∈ [offer1]) as Hin by (by left).
  assert (same_tuple_fields offer1 (with_segment offer_match (PyStr " 5 ")))
    as Hsame by (by repeat split).
  assert (tokens_of offer1 ≠ ∅) as Hne by (by vm_compute).
  assert (tokens_of (with_segment offer_match (PyStr " 5 ")) ≠ ∅) as Hne'
    by (by vm_compute).
  split; [exact Hin|]. split; [exact Hsame|].
  split; [exact Hne|]. split; [exact Hne'|].
  exact (duplicate_offer_adds_no_candidate [offer1] [click1] offer1
           (with_segment offer_match (PyStr " 5 ")) initial
           Hin Hsame Hne Hne').
Defined.

(** ** The text that is hashed *)

Lemma literal_row_candidate click offer n :
  literal_row (candidate click offer n) =
  match py_int (current_aff_id click) with
  | Ok a => Ok (Some a, Some (py_str (current_source click)),
                Some (py_str (ssp_account_id offer)), Some n)
  | Raise ex => Raise ex
  end.
Proof.
  unfold literal_row, candidate. simpl.
  by destruct (py_int (current_aff_id click)).
Qed.

(** X7.  For a tuple that [generate_aff_source_pairs] returned, the literal
    row of the hash query can only fail on the affiliate identifier, and
    the text that the query hashes is
    [int(aff_id)_str(source)_str(account_id)_int(segment_id)]: none of
    the [COALESCE] defaults of the query is ever used, a missing source is
    hashed as the text [None]. *)
Theorem generated_candidate_hash_text df1 df2 rows w :
  frames w !! df2 = Some rows →
  ∃ pairs w',
    generate_aff_source_pairs df1 df2 w = (Ok pairs, w') ∧
    ∀ tuple, tuple ∈ pairs →
      ∃ click offer n,
        click ∈ df1 ∧ offer ∈ rows ∧
        py_int (ssp_segment_id offer) = Ok n ∧
        tuple = candidate click offer n ∧
        match py_int (current_aff_id click) with
        | Raise ex => literal_row tuple = Raise ex
        | Ok a =>
            ∃ source account_id,
              literal_row tuple = Ok (Some a, Some source, Some account_id,
                                      Some n) ∧
              hash_text (Some a, Some source, Some account_id, Some n)
                = candidate_text a click offer n
        end.
Proof.
  intros Hdf. eexists _, _. split; [by apply generate_run|].
  intros tuple Ht.
  apply elem_of_generated in Ht as (c & o & n & Hc & Ho & _ & Hn & _ & ->).
  exists c, o, n. split_and!; try done.
  rewrite literal_row_candidate.
  destruct (py_int (current_aff_id c)) as [a|ex]; [|done].
  by eexists _, _.
Qed.

Lemma generated_candidate_hash_text_witness :
  frames (one_frame [offer1]) !! 0%nat = Some [offer1] ∧
  ∃ pairs w',
    generate_aff_source_pairs [Click (PyInt 1) PyNone] 0%nat
      (one_frame [offer1]) = (Ok pairs, w') ∧
    ∀ tuple, tuple ∈ pairs →
      ∃ click offer n,
        click ∈ [Click (PyInt 1) PyNone] ∧ offer ∈ [offer1] ∧
        py_int (ssp_segment_id offer) = Ok n ∧
        tuple = candidate click offer n ∧
        match py_int (current_aff_id click) with
        | Raise ex => literal_row tuple = Raise ex
        | Ok a =>
            ∃ source account_id,
              literal_row tuple = Ok (Some a, Some source, Some account_id,
                                      Some n) ∧
              hash_text (Some a, Some source, Some account_id, Some n)
                = candidate_text a click offer n
        end.
Proof.
  split; [reflexivity|].
  apply (generated_candidate_hash_text [Click (PyInt 1) PyNone] 0%nat
           [offer1]).
  reflexivity.
Defined.

Example missing_source_is_hashed_as_None :
  hash_text <$> values_loop
    [candidate (Click (PyInt 1) PyNone) offer1 5] []
  = ["1_None_A_5"].
Proof. reflexivity. Qed.

Lemma string_app_assoc (s1 s2 s3 : string) :
  (s1 +:+ s2) +:+ s3 = s1 +:+ (s2 +:+ s3).
Proof.
  induction s1 as [|a s1 IH]; [done|].
  change (String a ((s1 +:+ s2) +:+ s3) = String a (s1 +:+ (s2 +:+ s3))).
  by rewrite IH.
Qed.

(** X8.  The separator of the hashed text is not escaped: moving text across
    the boundary between source and account identifier, along an
    underscore, gives a candidate with the same hashed text, hence the same
    hash, whatever the hash function. *)
Theorem hash_text_separator_ambiguity
    (hashtext : string → Z) (pr pr' : CandidateTuple) s1 s2 account v v' :
  pair_0 pr = pair_0 pr' → pair_3 pr = pair_3 pr' →
  pair_1 pr = PyStr (s1 +:+ "_" +:+ s2) → pair_2 pr = PyStr account →
  pair_1 pr' = PyStr s1 → pair_2 pr' = PyStr (s2 +:+ "_" +:+ account) →
  literal_row pr = Ok v → literal_row pr' = Ok v' →
  hash_text v = hash_text v' ∧
  hashtext (hash_text v) = hashtext (hash_text v').
Proof.
  intros H0 H3 H1 H2 H1' H2'. unfold literal_row.
  rewrite H0, H3, H1, H2, H1', H2'.
  destruct (py_int (pair_0 pr')) as [a|]; [|done].
  destruct (py_int (pair_3 pr')) as [n|]; [|done].
  intros [= <-] [= <-].
  match goal with |- ?x = ?y ∧ _ => assert (x = y) as Heq end.
  { unfold hash_text, coalesce. cbn [default py_str]. unfold id.
    by rewrite !string_app_assoc. }
  by rewrite Heq.
Qed.

Lemma hash_text_separator_ambiguity_witness :
  let pr : CandidateTuple :=
    (PyInt 1, PyStr "fb_ads", PyStr "A", PyInt 5, PyInt 10, PyStr "X",
     PyStr "seg") in
  let pr' : CandidateTuple :=
    (PyInt 1, PyStr "fb", PyStr "ads_A", PyInt 5, PyInt 11, PyStr "Y",
     PyStr "seg") in
  hash_text (Some 1, Some "fb_ads", Some "A", Some 5)
    = hash_text (Some 1, Some "fb", Some "ads_A", Some 5) ∧
  toy_hash (hash_text (Some 1, Some "fb_ads", Some "A", Some 5))
    = toy_hash (hash_text (Some 1, Some "fb", Some "ads_A", Some 5)).
Proof.
  intros pr pr'.
  apply (hash_text_separator_ambiguity toy_hash pr pr' "fb" "ads" "A");
    reflexivity.
Defined.

(** ** More on the observed hashes *)

(** X9.  The observed set depends on the rows that have an account
    identifier, and on nothing else about the DataFrame: when every such row
    of one DataFrame is a row of another, the tokens observed in the first
    are observed in the second.  Order and repetition of rows do not
    matter, and rows without an account identifier add nothing. *)
Theorem observed_hashes_monotone df df' rows rows' w w' :
  frames w !! df = Some rows → frames w' !! df' = Some rows' →
  (∀ offer, offer ∈ rows → notnull (ssp_account_id offer) → offer ∈ rows') →
  ∃ observed observed' w1 w1',
    get_current_hashes df w = (Ok observed, w1) ∧
    get_current_hashes df' w' = (Ok observed', w1') ∧
    observed ⊆ observed'.
Proof.
  intros Hdf Hdf' Hsub. eexists _, _, _, _.
  split; [by apply get_current_hashes_run|].
  split; [by apply get_current_hashes_run|].
  intros tok. rewrite !elem_of_hashes_loop.
  intros [?|(o & Ho & Hacc & Htok)]; [by left|].
  right. exists o. split; [by apply Hsub|done].
Qed.

Lemma observed_hashes_monotone_witness :
  frames (one_frame [offer1; offer_null_account; offer1]) !! 0%nat
    = Some [offer1; offer_null_account; offer1] ∧
  frames (one_frame [offer_match; offer1]) !! 0%nat
    = Some [offer_match; offer1] ∧
  (∀ offer, offer ∈ [offer1; offer_null_account; offer1] →
            notnull (ssp_account_id offer) → offer ∈ [offer_match; offer1]) ∧
  ∃ observed observed' w1 w1',
    get_current_hashes 0%nat
      (one_frame [offer1; offer_null_account; offer1]) = (Ok observed, w1) ∧
    get_current_hashes 0%nat (one_frame [offer_match; offer1])
      = (Ok observed', w1') ∧
    observed ⊆ observed'.
Proof.
  assert (∀ offer, offer ∈ [offer1; offer_null_account; offer1] →
            notnull (ssp_account_id offer) → offer ∈ [offer_match; offer1])
    as Hsub.
  { intros offer Hin Hacc.
    repeat (apply elem_of_cons in Hin as [->|Hin]); try (by right; left).
    - done.
    - by inversion Hin. }
  split; [reflexivity|]. split; [reflexivity|]. split; [exact Hsub|].
  apply (observed_hashes_monotone 0%nat 0%nat
           [offer1; offer_null_account; offer1] [offer_match; offer1]);
    [reflexivity|reflexivity|exact Hsub].
Defined.

(** ** What the functions leave alone *)

Lemma traffic_world (hashtext : string → Z) data w :
  ∃ entries,
    (traffic_source_hash_pairs hashtext data w).2 = with_log w entries ∧
    match (traffic_source_hash_pairs hashtext data w).1 with
    | Ok _ => entries = [LogSuccess "TRAFFIC_SOURCE_HASH_PAIRS"]
    | Raise _ => entries = []
    end.
Proof.
  rewrite traffic_run.
  destruct (decide (values_loop data [] = []));
    [exists []; by rewrite with_log_nil|].
  destruct (g_pairs w) as [pairs|]; [|exists []; by rewrite with_log_nil].
  destruct (decide (length pairs = length (values_loop data [])));
    [by eexists|exists []; by rewrite with_log_nil].
Qed.

(** X10.  Only [generate_aff_source_pairs] writes to a DataFrame:
    [get_current_hashes], [traffic_source_hash_pairs] and [rehashed_sources]
    leave every DataFrame and the global [pairs] as they find them, whatever
    they return or raise, and only add to the log. *)
Theorem readers_leave_frames_and_pairs
    (hashtext : string → Z) df data hashed_list w :
  (frames (get_current_hashes df w).2 = frames w ∧
   g_pairs (get_current_hashes df w).2 = g_pairs w ∧
   logged w `prefix_of` logged (get_current_hashes df w).2) ∧
  (frames (traffic_source_hash_pairs hashtext data w).2 = frames w ∧
   g_pairs (traffic_source_hash_pairs hashtext data w).2 = g_pairs w ∧
   logged w `prefix_of` logged (traffic_source_hash_pairs hashtext data w).2) ∧
  (frames (rehashed_sources hashtext hashed_list w).2 = frames w ∧
   g_pairs (rehashed_sources hashtext hashed_list w).2 = g_pairs w ∧
   logged w `prefix_of` logged (rehashed_sources hashtext hashed_list w).2).
Proof.
  split_and!.
  - unfold get_current_hashes, bind, read_frame.
    by destruct (frames w !! df).
  - unfold get_current_hashes, bind, read_frame.
    by destruct (frames w !! df).
  - unfold get_current_hashes, bind, read_frame.
    destruct (frames w !! df); simpl; [by apply prefix_app_r|done].
  - destruct (traffic_world hashtext data w) as (entries & -> & _). done.
  - destruct (traffic_world hashtext data w) as (entries & -> & _). done.
  - destruct (traffic_world hashtext data w) as (entries & -> & _).
    simpl. by apply prefix_app_r.
  - rewrite rehashed_sources_run. destruct (g_pairs w) as [pairs|]; [|done].
    destruct (traffic_world hashtext pairs w) as (entries & Hw & _).
    destruct (traffic_source_hash_pairs hashtext pairs w) as [[?|?] w1];
      simpl in *; by subst.
  - rewrite rehashed_sources_run.
    destruct (g_pairs w) as [pairs|] eqn:Hg; [|done].
    destruct (traffic_world hashtext pairs w) as (entries & Hw & _).
    destruct (traffic_source_hash_pairs hashtext pairs w) as [[?|?] w1];
      simpl in *; by subst.
  - rewrite rehashed_sources_run.
    destruct (g_pairs w) as [pairs|] eqn:Hg; [|done].
    destruct (traffic_world hashtext pairs w) as (entries & Hw & _).
    destruct (traffic_source_hash_pairs hashtext pairs w) as [[?|?] w1];
      simpl in *; subst; simpl.
    + rewrite <- app_assoc. by apply prefix_app_r.
    + by apply prefix_app_r.
Qed.

(** X11.  Called on the global [pairs], as the script does,
    [traffic_source_hash_pairs] returns a table exactly when there is at
    least one candidate and every candidate converts.  With no convertible
    candidate the query is rejected; with some, but not all, the columns of
    the table differ in length.  When it raises, the state and the log are
    as before the call. *)
Theorem traffic_outcomes (hashtext : string → Z) pairs w :
  g_pairs w = Some pairs →
  (pairs ≠ [] → uncoercible pairs = 0%nat →
   traffic_source_hash_pairs hashtext pairs w
   = (Ok (zip_with hashed_row pairs
            (hashtext ∘ hash_text <$> values_loop pairs [])),
      with_log w [LogSuccess "TRAFFIC_SOURCE_HASH_PAIRS"])) ∧
  (uncoercible pairs = length pairs →
   traffic_source_hash_pairs hashtext pairs w = (Raise ProgrammingError, w)) ∧
  ((0 < uncoercible pairs < length pairs)%nat →
   traffic_source_hash_pairs hashtext pairs w = (Raise ValueError, w)).
Proof.
  intros Hg. pose proof (length_values_loop pairs) as Hlen. split_and!.
  - intros Hne Hbad. by apply traffic_all_coercible.
  - intros Hall. rewrite traffic_run, decide_True; [done|].
    apply length_zero_iff_nil. lia.
  - intros Hsome. rewrite traffic_run, Hg.
    rewrite decide_False, decide_False; [done|lia|].
    intros Hnil. rewrite Hnil in Hlen. simpl in Hlen. lia.
Qed.

Lemma traffic_outcomes_witness :
  g_pairs (with_pairs [cand_good; cand_bad]) = Some [cand_good; cand_bad] ∧
  (([cand_good; cand_bad] : list CandidateTuple) ≠ [] →
   uncoercible [cand_good; cand_bad] = 0%nat →
   traffic_source_hash_pairs toy_hash [cand_good; cand_bad]
     (with_pairs [cand_good; cand_bad])
   = (Ok (zip_with hashed_row [cand_good; cand_bad]
            (toy_hash ∘ hash_text <$> values_loop [cand_good; cand_bad] [])),
      with_log (with_pairs [cand_good; cand_bad])
        [LogSuccess "TRAFFIC_SOURCE_HASH_PAIRS"])) ∧
  (uncoercible [cand_good; cand_bad] = length [cand_good; cand_bad] →
   traffic_source_hash_pairs toy_hash [cand_good; cand_bad]
     (with_pairs [cand_good; cand_bad])
   = (Raise ProgrammingError, with_pairs [cand_good; cand_bad])) ∧
  ((0 < uncoercible [cand_good; cand_bad] < length [cand_good; cand_bad])%nat →
   traffic_source_hash_pairs toy_hash [cand_good; cand_bad]
     (with_pairs [cand_good; cand_bad])
   = (Raise ValueError, with_pairs [cand_good; cand_bad])).
Proof.
  split; [reflexivity|].
  apply (traffic_outcomes toy_hash [cand_good; cand_bad]). reflexivity.
Defined.

(** ** More on reconciliation *)

Lemma filter_sublist_impl {A} (P Q : A → Prop)
    `{!∀ x, Decision (P x)} `{!∀ x, Decision (Q x)} (l : list A) :
  (∀ x, P x → Q x) → filter P l `sublist_of` filter Q l.
Proof.
  intros HPQ. induction l as [|x l IH]; [done|].
  rewrite !filter_cons.
  destruct (decide (P x)) as [HP|HnP].
  - rewrite decide_True by (by apply HPQ). by apply sublist_skip.
  - destruct (decide (Q x)); [by apply sublist_cons|done].
Qed.

(** X12.  A larger observed set only adds rows: when [rehashed_sources]
    returns for one set of hashes it returns for every larger set, the
    first table is a sub-sequence of the second, and no table has more
    rows than there are candidates in [pairs]. *)
Theorem rehashed_sources_monotone
    (hashtext : string → Z) hashed_list hashed_list' pairs w out w1 :
  hashed_list ⊆ hashed_list' →
  g_pairs w = Some pairs →
  rehashed_sources hashtext hashed_list w = (Ok out, w1) →
  ∃ out' w1',
    rehashed_sources hashtext hashed_list' w = (Ok out', w1') ∧
    out `sublist_of` out' ∧
    (length out' ≤ length pairs)%nat.
Proof.
  intros Hsub Hg. rewrite !rehashed_sources_run, Hg.
  destruct (traffic_source_hash_pairs hashtext pairs w)
    as [[hashed|ex] w2] eqn:Htraffic; [|done].
  intros [= <- <-]. eexists _, _. split; [done|].
  rewrite !rehash_loop_filter. simpl. split.
  - apply fmap_sublist, filter_sublist_impl. intros row. apply Hsub.
  - destruct (traffic_ok hashtext pairs pairs w hashed w2 Hg Htraffic)
      as (_ & Hlen & -> & _).
    rewrite length_fmap.
    etrans; [apply length_filter|].
    rewrite length_zip_with, length_fmap. lia.
Qed.

Lemma rehashed_sources_monotone_witness :
  ({[ "8" ]} : gset string) ⊆ {[ "8"; "9" ]} ∧
  g_pairs (with_pairs [cand_good; cand_other])
    = Some [cand_good; cand_other] ∧
  rehashed_sources toy_hash {[ "8" ]} (with_pairs [cand_good; cand_other])
    = (Ok [resolved_row (hashed_row cand_good 8);
           resolved_row (hashed_row cand_other 8)],
       World ∅ (Some [cand_good; cand_other])
         [LogSuccess "TRAFFIC_SOURCE_HASH_PAIRS";
          LogInfo "All rehashed sources" 2]) ∧
  ∃ out' w1',
    rehashed_sources toy_hash {[ "8"; "9" ]}
      (with_pairs [cand_good; cand_other]) = (Ok out', w1') ∧
    [resolved_row (hashed_row cand_good 8);
     resolved_row (hashed_row cand_other 8)] `sublist_of` out' ∧
    (length out' ≤ length [cand_good; cand_other])%nat.
Proof.
  assert (({[ "8" ]} : gset string) ⊆ {[ "8"; "9" ]}) as Hsub.
  { apply elem_of_subseteq. intros x Hx. apply elem_of_union. by left. }
  split; [exact Hsub|]. split; [reflexivity|].
  split; [vm_compute; reflexivity|].
  apply (rehashed_sources_monotone toy_hash {[ "8" ]} {[ "8"; "9" ]}
           [cand_good; cand_other] (with_pairs [cand_good; cand_other])
           [resolved_row (hashed_row cand_good 8);
            resolved_row (hashed_row cand_other 8)]
           (World ∅ (Some [cand_good; cand_other])
              [LogSuccess "TRAFFIC_SOURCE_HASH_PAIRS";
               LogInfo "All rehashed sources" 2])
           Hsub eq_refl).
  vm_compute. reflexivity.
Defined.

(** ** The script from end to end *)

Lemma uncoercible_zero pairs :
  (∀ pr, pr ∈ pairs → ∃ v, literal_row pr = Ok v) → uncoercible pairs = 0%nat.
Proof.
  intros Hall. unfold uncoercible. induction pairs as [|pr rest IH]; [done|].
  rewrite (filter_cons _ pr rest).
  destruct (Hall pr) as [v Hv]; [by left|].
  rewrite decide_False by (unfold literal_of; by rewrite Hv).
  apply IH. intros pr' Hin. apply Hall. by right.
Qed.

Lemma uncoercible_pos pairs pr ex :
  pr ∈ pairs → literal_row pr = Raise ex → (0 < uncoercible pairs)%nat.
Proof.
  intros Hin Hex. unfold uncoercible.
  assert (pr ∈ filter (λ pr, literal_of pr = None) pairs) as Hf.
  { apply list_elem_of_filter. split; [|done].
    unfold literal_of. by rewrite Hex. }
  destruct (filter _ pairs); [by inversion Hf|simpl; lia].
Qed.

Lemma zip_aligned_inv (f : sql_row → Z) pairs i pr :
  uncoercible pairs = 0%nat →
  pairs !! i = Some pr →
  ∃ v, literal_row pr = Ok v ∧
       zip_with hashed_row pairs (f <$> omap literal_of pairs) !! i
       = Some (hashed_row pr (f v)).
Proof.
  revert i. induction pairs as [|pr0 rest IH]; intros i Hbad Hpr;
    [by destruct i|].
  apply uncoercible_cons in Hbad as [[v Hv] Hbad].
  simpl. unfold literal_of at 1. rewrite Hv.
  destruct i as [|i]; simpl in *.
  - injection Hpr as <-. by exists v.
  - by apply IH.
Qed.

Lemma elem_of_hashed (f : sql_row → Z) pairs row :
  uncoercible pairs = 0%nat →
  row ∈ zip_with hashed_row pairs (f <$> omap literal_of pairs) ↔
  ∃ pr v, pr ∈ pairs ∧ literal_row pr = Ok v ∧ row = hashed_row pr (f v).
Proof.
  intros Hbad. split.
  - intros Hin. apply list_elem_of_lookup in Hin as [i Hi].
    apply zip_aligned in Hi as (v & Hpr & Hv & Hh); [|done].
    exists (tuple_of row), v. split_and!; [|done|].
    + by eapply list_elem_of_lookup_2.
    + destruct row. simpl in *. by subst.
  - intros (pr & v & Hin & Hv & ->).
    apply list_elem_of_lookup in Hin as [i Hi].
    destruct (zip_aligned_inv f pairs i pr Hbad Hi) as (v' & Hv' & Hrow).
    rewrite Hv in Hv'. injection Hv' as <-.
    by eapply list_elem_of_lookup_2.
Qed.

Lemma main_run_ok (hashtext : string → Z) acc_rows aff_rows w :
  let pairs := elements (all_tuples aff_rows (dropna_segment acc_rows)) in
  let observed := hashes_loop (dropna_segment acc_rows) ∅ in
  pairs ≠ [] → uncoercible pairs = 0%nat →
  (main hashtext acc_rows aff_rows w).1 =
  Ok (resolved_row <$>
        filter (λ row, py_str (h_hash_value row) ∈ observed)
          (zip_with hashed_row pairs
             (hashtext ∘ hash_text <$> omap literal_of pairs))).
Proof.
  intros pairs observed Hne Hbad. unfold main.
  erewrite bind_ok; [|apply reference_run_run].
  cbn [snd]. unfold bind at 1. rewrite rehashed_sources_run.
  cbn [g_pairs after_reference_run].
  rewrite (traffic_all_coercible hashtext pairs) by done.
  cbn. rewrite rehash_loop_filter, values_loop_omap. done.
Qed.

(** X13.  When the affiliate identifier of every click converts and some
    click meets an offer that gives a candidate, the script returns a
    table.  Its rows are exactly the candidates of the cross product whose
    hash, written in decimal, is an observed token; each row carries the
    hash of the text [int(aff_id)_str(source)_str(account_id)_segment_id]
    and the fields of its click and its offer. *)
Theorem main_resolves_observed_candidates
    (hashtext : string → Z) acc_rows aff_rows w :
  (∀ click, click ∈ aff_rows → ∃ a, py_int (current_aff_id click) = Ok a) →
  (∃ click offer, click ∈ aff_rows ∧ offer ∈ acc_rows ∧ eligible offer) →
  ∃ pairs observed w1 out,
    reference_run acc_rows aff_rows w = (Ok (pairs, observed), w1) ∧
    (main hashtext acc_rows aff_rows w).1 = Ok out ∧
    ∀ row, row ∈ out ↔
      ∃ click offer a n,
        click ∈ aff_rows ∧ offer ∈ acc_rows ∧
        py_int (current_aff_id click) = Ok a ∧
        py_int (ssp_segment_id offer) = Ok n ∧ tokens_of offer ≠ ∅ ∧
        pretty (hashtext (candidate_text a click offer n)) ∈ observed ∧
        row = Resolved (PyInt (hashtext (candidate_text a click offer n)))
                (offer_id offer) (current_aff_id click)
                (current_source click)
                (PyStr (py_str (ssp_account_id offer))) (PyInt n)
                (advertiser offer) (name offer).
Proof.
  intros Hclicks (c0 & o0 & Hc0 & Ho0 & Hel).
  set (pairs := elements (all_tuples aff_rows (dropna_segment acc_rows))).
  assert (uncoercible pairs = 0%nat) as Hbad.
  { apply uncoercible_zero. intros pr Hpr.
    apply elem_of_generated in Hpr as (c & o & n & Hc & _ & _ & _ & _ & ->).
    rewrite literal_row_candidate. destruct (Hclicks c Hc) as [a ->].
    by eexists. }
  assert (pairs ≠ []) as Hne.
  { unfold eligible in Hel.
    destruct (py_int (ssp_segment_id o0)) as [n|] eqn:Hn; [|done].
    apply bool_decide_unpack in Hel.
    assert (candidate c0 o0 n ∈ pairs) as Hin.
    { apply elem_of_generated. exists c0, o0, n.
      split_and!; try done. by eapply py_int_null. }
    intros Hnil. rewrite Hnil in Hin. by inversion Hin. }
  eexists _, _, _, _. split; [apply reference_run_run|].
  split; [by apply main_run_ok|].
  intros row. rewrite list_elem_of_fmap. split.
  - intros (hrow & -> & Hin).
    apply list_elem_of_filter in Hin as [Hobs Hin].
    apply elem_of_hashed in Hin as (pr & v & Hpr & Hv & ->); [|done].
    apply elem_of_generated in Hpr as (c & o & n & Hc & Ho & _ & Hn & Ht & ->).
    rewrite literal_row_candidate in Hv.
    destruct (py_int (current_aff_id c)) as [a|] eqn:Ha; [|done].
    injection Hv as <-. by exists c, o, a, n.
  - intros (c & o & a & n & Hc & Ho & Ha & Hn & Ht & Hobs & ->).
    exists (hashed_row (candidate c o n)
              (hashtext (candidate_text a c o n))).
    split; [done|]. apply list_elem_of_filter. split; [done|].
    apply elem_of_hashed; [done|].
    exists (candidate c o n), (Some a, Some (py_str (current_source c)),
                               Some (py_str (ssp_account_id o)), Some n).
    split_and!; [|by rewrite literal_row_candidate, Ha|done].
    apply elem_of_generated. exists c, o, n.
    split_and!; try done. by eapply py_int_null.
Qed.

Lemma main_resolves_observed_candidates_witness :
  (∀ click, click ∈ [click1] → ∃ a, py_int (current_aff_id click) = Ok a) ∧
  (∃ click offer, click ∈ [click1] ∧ offer ∈ [offer_match] ∧ eligible offer) ∧
  ∃ pairs observed w1 out,
    reference_run [offer_match] [click1] initial
      = (Ok (pairs, observed), w1) ∧
    (main toy_hash [offer_match] [click1] initial).1 = Ok out ∧
    ∀ row, row ∈ out ↔
      ∃ click offer a n,
        click ∈ [click1] ∧ offer ∈ [offer_match] ∧
        py_int (current_aff_id click) = Ok a ∧
        py_int (ssp_segment_id offer) = Ok n ∧ tokens_of offer ≠ ∅ ∧
        pretty (toy_hash (candidate_text a click offer n)) ∈ observed ∧
        row = Resolved (PyInt (toy_hash (candidate_text a click offer n)))
                (offer_id offer) (current_aff_id click)
                (current_source click)
                (PyStr (py_str (ssp_account_id offer))) (PyInt n)
                (advertiser offer) (name offer).
Proof.
  assert (∀ click, click ∈ [click1] →
            ∃ a, py_int (current_aff_id click) = Ok a) as Hclicks.
  { intros click Hin. apply list_elem_of_singleton in Hin as ->. by exists 1. }
  assert (∃ click offer,
            click ∈ [click1] ∧ offer ∈ [offer_match] ∧ eligible offer)
    as Hsome.
  { exists click1, offer_match. split; [by left|]. split; [by left|].
    by vm_compute. }
  split; [exact Hclicks|]. split; [exact Hsome|].
  exact (main_resolves_observed_candidates toy_hash [offer_match] [click1]
           initial Hclicks Hsome).
Defined.

Lemma rehashed_frames (hashtext : string → Z) hashed_list w :
  frames (rehashed_sources hashtext hashed_list w).2 = frames w.
Proof.
  rewrite rehashed_sources_run. destruct (g_pairs w) as [pairs|]; [|done].
  destruct (traffic_world hashtext pairs w) as (entries & Hw & _).
  destruct (traffic_source_hash_pairs hashtext pairs w) as [[?|?] w1];
    simpl in *; by subst.
Qed.

Lemma main_world (hashtext : string → Z) acc_rows aff_rows w :
  frames (main hashtext acc_rows aff_rows w).2
  = <[fresh (dom (frames w)) := dropna_segment acc_rows]> (frames w).
Proof.
  unfold main. erewrite bind_ok; [|apply reference_run_run].
  cbn [snd]. unfold bind at 1.
  pose proof (rehashed_frames hashtext
    (hashes_loop (dropna_segment acc_rows) ∅)
    (after_reference_run acc_rows aff_rows w)) as Hframes.
  destruct (rehashed_sources hashtext _ _) as [[out|ex] w2]; exact Hframes.
Qed.

Lemma main_raises (hashtext : string → Z) acc_rows aff_rows w ex :
  (traffic_source_hash_pairs hashtext
     (elements (all_tuples aff_rows (dropna_segment acc_rows)))
     (after_reference_run acc_rows aff_rows w)).1 = Raise ex →
  (main hashtext acc_rows aff_rows w).1 = Raise ex.
Proof.
  intros Htraffic. unfold main.
  erewrite bind_ok; [|apply reference_run_run].
  cbn [snd]. unfold bind at 1. rewrite rehashed_sources_run.
  cbn [g_pairs after_reference_run].
  destruct (traffic_source_hash_pairs hashtext _ _) as [[?|?] ?];
    simpl in *; by simplify_eq.
Qed.

(** X14.  One click whose affiliate identifier does not convert stops the
    script as soon as some offer gives a candidate: the hash table is never
    assembled and [main] raises, either because no candidate at all
    converts or because the columns differ in length. *)
Theorem main_aborts_on_bad_affiliate
    (hashtext : string → Z) acc_rows aff_rows w click offer ex :
  click ∈ aff_rows → py_int (current_aff_id click) = Raise ex →
  offer ∈ acc_rows → eligible offer →
  (main hashtext acc_rows aff_rows w).1 = Raise ValueError ∨
  (main hashtext acc_rows aff_rows w).1 = Raise ProgrammingError.
Proof.
  intros Hc Hex Ho Hel.
  set (pairs := elements (all_tuples aff_rows (dropna_segment acc_rows))).
  assert (0 < uncoercible pairs)%nat as Hbad.
  { unfold eligible in Hel.
    destruct (py_int (ssp_segment_id offer)) as [n|] eqn:Hn; [|done].
    apply bool_decide_unpack in Hel.
    apply (uncoercible_pos pairs (candidate click offer n) ex).
    - apply elem_of_generated. exists click, offer, n.
      split_and!; try done. by eapply py_int_null.
    - by rewrite literal_row_candidate, Hex. }
  pose proof (length_values_loop pairs) as Hlen.
  destruct (decide (values_loop pairs [] = [])) as [Hnil|Hsome].
  - right. apply main_raises. rewrite traffic_run. fold pairs.
    by rewrite decide_True.
  - left. apply main_raises. rewrite traffic_run. fold pairs.
    cbn [g_pairs after_reference_run]. fold pairs.
    rewrite decide_False by done. by rewrite decide_False by lia.
Qed.

Lemma main_aborts_on_bad_affiliate_witness :
  Click (PyStr "n/a") (PyStr "tw") ∈ [click1; Click (PyStr "n/a") (PyStr "tw")]
  ∧ py_int (current_aff_id (Click (PyStr "n/a") (PyStr "tw")))
    = Raise ValueError
  ∧ offer_match ∈ [offer_match]
  ∧ eligible offer_match
  ∧ ((main toy_hash [offer_match]
        [click1; Click (PyStr "n/a") (PyStr "tw")] initial).1
     = Raise ValueError ∨
     (main toy_hash [offer_match]
        [click1; Click (PyStr "n/a") (PyStr "tw")] initial).1
     = Raise ProgrammingError).
Proof.
  assert (Click (PyStr "n/a") (PyStr "tw")
            ∈ [click1; Click (PyStr "n/a") (PyStr "tw")]) as Hc
    by (right; by left).
  assert (offer_match ∈ [offer_match]) as Ho by (by left).
  assert (eligible offer_match : Prop) as Hel by (by vm_compute).
  split; [exact Hc|]. split; [reflexivity|].
  split; [exact Ho|]. split; [exact Hel|].
  exact (main_aborts_on_bad_affiliate toy_hash [offer_match]
           [click1; Click (PyStr "n/a") (PyStr "tw")] initial
           (Click (PyStr "n/a") (PyStr "tw")) offer_match ValueError
           Hc eq_refl Ho Hel).
Defined.

(** X15.  The script works on a DataFrame of its own: whatever it returns
    or raises, the DataFrames that were there before are as they were, and
    the one it has made holds the offers with a segment identifier. *)
Theorem main_leaves_other_frames
    (hashtext : string → Z) acc_rows aff_rows w :
  frames w !! fresh (dom (frames w)) = None ∧
  frames (main hashtext acc_rows aff_rows w).2 !! fresh (dom (frames w))
    = Some (filter (λ row, notnull (ssp_segment_id row)) acc_rows) ∧
  ∀ df, is_Some (frames w !! df) →
        frames (main hashtext acc_rows aff_rows w).2 !! df = frames w !! df.
Proof.
  assert (frames w !! fresh (dom (frames w)) = None) as Hfresh.
  { apply not_elem_of_dom. apply is_fresh. }
  rewrite main_world. split_and!.
  - done.
  - apply lookup_insert_eq.
  - intros df [rows Hdf]. apply lookup_insert_ne.
    intros <-. by rewrite Hfresh in Hdf.
Qed.

(** ** [read_config] *)

Example read_sample_config :
  read_config sample_get sample_expanduser "postgresql"
  = inr (SshParam "bastion.example.org" 2222 "/home/deploy/.ssh/id_rsa"
           "deploy" ("10.0.0.5", 5432),
         DbParam "offers" "reader" "secret" "localhost").
Proof. reflexivity. Qed.

Lemma split_no_sep sep s : no_sep sep s → split sep s = [s].
Proof.
  unfold no_sep. induction s as [|a s IH]; [done|].
  simpl. intros [Ha Hs]%Forall_cons.
  rewrite decide_False by done. by rewrite IH.
Qed.

Lemma split_app_sep sep s r :
  no_sep sep s → split sep (s +:+ String sep r) = s :: split sep r.
Proof.
  unfold no_sep. induction s as [|a s IH].
  - intros _. simpl. by rewrite decide_True.
  - simpl. intros [Ha Hs]%Forall_cons.
    change (String a s +:+ String sep r) with (String a (s +:+ String sep r)).
    simpl. rewrite decide_False by done. by rewrite IH.
Qed.

Lemma split_host_port h p t :
  no_sep ":" h → no_sep ":" p → port_tail t →
  ∃ rest, split ":" (h +:+ ":" +:+ p +:+ t) = h :: p :: rest.
Proof.
  intros Hh Hp Ht.
  change (h +:+ ":" +:+ p +:+ t) with (h +:+ String ":" (p +:+ t)).
  rewrite split_app_sep by done.
  destruct Ht as [->|[t' ->]].
  - exists []. f_equal.
    assert (p +:+ "" = p) as ->.
    { clear Hp. induction p as [|a p IH]; [done|].
      change (String a p +:+ "") with (String a (p +:+ "")). by rewrite IH. }
    by apply split_no_sep.
  - exists (split ":" t'). f_equal. by apply split_app_sep.
Qed.

Lemma pretty_no_colon (z : Z) : no_sep ":" (pretty z).
Proof.
  assert (∀ p, no_sep ":" (pretty_N_go (N.pos p) "")) as Hpos.
  { intros p. apply pretty_N_go_digits; [|done].
    intros a d Hd ->. done. }
  destruct z as [|p|p].
  - by repeat constructor.
  - unfold pretty, pretty_Z, pretty, pretty_positive, pretty, pretty_N.
    rewrite decide_False by done. apply Hpos.
  - unfold pretty, pretty_Z, pretty, pretty_positive, pretty, pretty_N.
    rewrite decide_False by done.
    apply Forall_cons. split; [done|]. apply Hpos.
Qed.

Section ConfigProperties.

Variable config_get : string → string → option string.
Variable expanduser : string → string.

(** X16.  From an option value [host:port], with or without more text
    after a further colon, [read_config] takes the text before the first
    colon as the host and the number between the first and the second colon
    as the port; the other options are copied, the key path through
    [expanduser]. *)
Theorem read_config_host_port
    section h1 p1 t1 key username h2 p2 t2 db_name db_user db_password
    db_host :
  no_sep ":" h1 → port_tail t1 → no_sep ":" h2 → port_tail t2 →
  config_get section "ssh_host" = Some (h1 +:+ ":" +:+ pretty p1 +:+ t1) →
  config_get section "ssh_private_key_path" = Some key →
  config_get section "ssh_username" = Some username →
  config_get section "remote_bind_address"
    = Some (h2 +:+ ":" +:+ pretty p2 +:+ t2) →
  config_get section "db_name" = Some db_name →
  config_get section "db_user" = Some db_user →
  config_get section "db_password" = Some db_password →
  config_get section "db_host" = Some db_host →
  read_config config_get expanduser section
  = inr (SshParam h1 p1 (expanduser key) username (h2, p2),
         DbParam db_name db_user db_password db_host).
Proof.
  intros Hh1 Ht1 Hh2 Ht2 G1 G2 G3 G4 G5 G6 G7 G8.
  destruct (split_host_port h1 (pretty p1) t1 Hh1 (pretty_no_colon p1) Ht1)
    as [rest1 Hs1].
  destruct (split_host_port h2 (pretty p2) t2 Hh2 (pretty_no_colon p2) Ht2)
    as [rest2 Hs2].
  unfold read_config, get.
  rewrite G1, G2, G3, G4, G5, G6, G7, G8. cbn [config_bind].
  rewrite Hs1, Hs2. unfold index, to_int. cbn [lookup list_lookup config_bind].
  rewrite !int_of_string_pretty. done.
Qed.

(** X17.  A host option without a colon makes [read_config] raise
    [IndexError], whatever the other options hold. *)
Theorem read_config_needs_a_port section value :
  config_get section "ssh_host" = Some value →
  no_sep ":" value →
  read_config config_get expanduser section = inl IndexError.
Proof.
  intros G1 Hv. unfold read_config, get. rewrite G1. cbn [config_bind].
  by rewrite split_no_sep.
Qed.

End ConfigProperties.

Lemma read_config_host_port_witness :
  no_sep ":" "bastion.example.org" ∧ port_tail "" ∧
  no_sep ":" "10.0.0.5" ∧ port_tail ":ignored" ∧
  sample_get "postgresql" "ssh_host"
    = Some ("bastion.example.org" +:+ ":" +:+ pretty 2222 +:+ "") ∧
  sample_get "postgresql" "ssh_private_key_path" = Some "~/.ssh/id_rsa" ∧
  sample_get "postgresql" "ssh_username" = Some "deploy" ∧
  sample_get "postgresql" "remote_bind_address"
    = Some ("10.0.0.5" +:+ ":" +:+ pretty 5432 +:+ ":ignored") ∧
  sample_get "postgresql" "db_name" = Some "offers" ∧
  sample_get "postgresql" "db_user" = Some "reader" ∧
  sample_get "postgresql" "db_password" = Some "secret" ∧
  sample_get "postgresql" "db_host" = Some "localhost" ∧
  read_config sample_get sample_expanduser "postgresql"
  = inr (SshParam "bastion.example.org" 2222
           (sample_expanduser "~/.ssh/id_rsa") "deploy" ("10.0.0.5", 5432),
         DbParam "offers" "reader" "secret" "localhost").
Proof.
  assert (no_sep ":" "bastion.example.org") as Hh1
    by (by repeat constructor).
  assert (port_tail "") as Ht1 by (by left).
  assert (no_sep ":" "10.0.0.5") as Hh2 by (by repeat constructor).
  assert (port_tail ":ignored") as Ht2 by (right; by eexists).
  split; [exact Hh1|]. split; [exact Ht1|].
  split; [exact Hh2|]. split; [exact Ht2|].
  repeat (split; [reflexivity|]).
  apply (read_config_host_port sample_get sample_expanduser "postgresql"
           "bastion.example.org" 2222 "" "~/.ssh/id_rsa" "deploy"
           "10.0.0.5" 5432 ":ignored" "offers" "reader" "secret" "localhost"
           Hh1 Ht1 Hh2 Ht2); reflexivity.
Defined.

Lemma read_config_needs_a_port_witness :
  assoc [("ssh_host", "bastion.example.org")] "ssh_host"
    = Some "bastion.example.org" ∧
  no_sep ":" "bastion.example.org" ∧
  read_config (λ _, assoc [("ssh_host", "bastion.example.org")])
    sample_expanduser "postgresql" = inl IndexError.
Proof.
  assert (no_sep ":" "bastion.example.org") as Hv by (by repeat constructor).
  split; [reflexivity|]. split; [exact Hv|].
  apply (read_config_needs_a_port
           (λ _, assoc [("ssh_host", "bastion.example.org")])
           sample_expanduser "postgresql" "bastion.example.org");
    [reflexivity|exact Hv].
Defined.

(** ** When the hashed text tells candidates apart *)

Lemma pretty_no_underscore (z : Z) : no_sep "_" (pretty z).
Proof.
  assert (∀ p, no_sep "_" (pretty_N_go (N.pos p) "")) as Hpos.
  { intros p. apply pretty_N_go_digits; [|done].
    intros a d Hd ->. done. }
  destruct z as [|p|p].
  - by repeat constructor.
  - unfold pretty, pretty_Z, pretty, pretty_positive, pretty, pretty_N.
    rewrite decide_False by done. apply Hpos.
  - unfold pretty, pretty_Z, pretty, pretty_positive, pretty, pretty_N.
    rewrite decide_False by done.
    apply Forall_cons. split; [done|]. apply Hpos.
Qed.

Lemma app_sep_inj sep x x' r r' :
  no_sep sep x → no_sep sep x' →
  x +:+ String sep r = x' +:+ String sep r' → x = x' ∧ r = r'.
Proof.
  unfold no_sep. revert x'.
  induction x as [|a x IH]; intros [|a' x'] Hx Hx' Heq.
  - by injection Heq as ->.
  - apply Forall_cons in Hx' as [Ha' _].
    change (String a' x' +:+ String sep r')
      with (String a' (x' +:+ String sep r')) in Heq.
    injection Heq as Heq _. by destruct Ha'.
  - apply Forall_cons in Hx as [Ha _].
    change (String a x +:+ String sep r)
      with (String a (x +:+ String sep r)) in Heq.
    injection Heq as Heq _. by destruct Ha.
  - apply Forall_cons in Hx as [_ Hx]. apply Forall_cons in Hx' as [_ Hx'].
    change (String a (x +:+ String sep r) = String a' (x' +:+ String sep r'))
      in Heq.
    injection Heq as -> Heq.
    destruct (IH x' Hx Hx' Heq) as [-> ->]. done.
Qed.

(** X19.  Without an underscore in the source and in the account
    identifier there is no such clash: two literal rows with the same
    hashed text are the same row. *)
Theorem hash_text_injective_without_underscore
    (pr pr' : CandidateTuple) v v' :
  literal_row pr = Ok v → literal_row pr' = Ok v' →
  no_sep "_" (py_str (pair_1 pr)) → no_sep "_" (py_str (pair_2 pr)) →
  no_sep "_" (py_str (pair_1 pr')) → no_sep "_" (py_str (pair_2 pr')) →
  hash_text v = hash_text v' → v = v'.
Proof.
  unfold literal_row.
  destruct (py_int (pair_0 pr)) as [a|]; [|done].
  destruct (py_int (pair_3 pr)) as [n|]; [|done].
  destruct (py_int (pair_0 pr')) as [a'|]; [|done].
  destruct (py_int (pair_3 pr')) as [n'|]; [|done].
  intros [= <-] [= <-] Hs Hacc Hs' Hacc'.
  unfold hash_text, coalesce. cbn [default]. unfold id.
  intros Heq.
  apply app_sep_inj in Heq as [Ha Heq]; [|apply pretty_no_underscore..].
  apply app_sep_inj in Heq as [Hsrc Heq]; [|done..].
  apply app_sep_inj in Heq as [Hac Hn]; [|done..].
  apply (inj pretty) in Ha. apply (inj pretty) in Hn.
  by rewrite Ha, Hsrc, Hac, Hn.
Qed.

Lemma hash_text_injective_without_underscore_witness :
  literal_row cand_good = Ok (Some 1, Some "fb", Some "A", Some 5) ∧
  literal_row cand_spaced = Ok (Some 1, Some "fb", Some "A", Some 5) ∧
  no_sep "_" (py_str (pair_1 cand_good)) ∧
  no_sep "_" (py_str (pair_2 cand_good)) ∧
  no_sep "_" (py_str (pair_1 cand_spaced)) ∧
  no_sep "_" (py_str (pair_2 cand_spaced)) ∧
  hash_text (Some 1, Some "fb", Some "A", Some 5)
    = hash_text (Some 1, Some "fb", Some "A", Some 5) ∧
  (Some 1, Some "fb", Some "A", Some 5)
    = ((Some 1, Some "fb", Some "A", Some 5) : sql_row).
Proof.
  assert (no_sep "_" (py_str (pair_1 cand_good))) as H1
    by (by repeat constructor).
  assert (no_sep "_" (py_str (pair_2 cand_good))) as H2
    by (by repeat constructor).
  assert (no_sep "_" (py_str (pair_1 cand_spaced))) as H3
    by (by repeat constructor).
  assert (no_sep "_" (py_str (pair_2 cand_spaced))) as H4
    by (by repeat constructor).
  split; [reflexivity|]. split; [reflexivity|].
  split; [exact H1|]. split; [exact H2|].
  split; [exact H3|]. split; [exact H4|].
  split; [reflexivity|].
  exact (hash_text_injective_without_underscore cand_good cand_spaced
           _ _ eq_refl eq_refl H1 H2 H3 H4 eq_refl).
Defined.
